(** * MAX31865 / rtd_calculator: resistance <-> temperature conversion

    A shallow embedding of [rtd_calculator.c] (GOST 6651-2009 calculator for
    platinum, copper and nickel resistance thermometers) and of the
    resistance read-out of the MAX31865 driver, with the properties of the
    specification stated over it.

    Modelling conventions.
    - A finite C [double] is an exact real number: rounding and overflow of
      the binary64 format are not modelled.  What is modelled is the way a
      non-finite value (an infinity or a NaN) is born and spreads: dividing
      by zero and taking the square root of a negative number give
      [NonFinite], and every operation that receives [NonFinite] returns it.
    - Formulas and branches are stated as they are.  Orders, magnitudes and
      round trips are stated with room for the rounding of binary64: a
      nominal resistance from a milliohm to a megohm, inputs a margin
      apart, results within a tolerance.  Where a statement without such
      room fails on the machine, [Binary64] has the function over the
      doubles of the kernel to show it.
    - The arguments of the six calculator functions are finite doubles, that
      is reals; their results are [double]s.
    - [uint8_t] selectors and bytes are integers of [Z].
    - [pow (x, i)] with the small integral exponents of the source is the
      real power [x ^ i]. *)

From Stdlib Require Import Reals Lra Lia ZArith List Bool.
From Stdlib Require PrimFloat.
Import ListNotations.

Open Scope R_scope.

(** ** Doubles *)

Inductive double : Type :=
| Fin (r : R)
| NonFinite.

Coercion Fin : R >-> double.

Definition dlift2 (f : R -> R -> R) (x y : double) : double :=
  match x, y with
  | Fin a, Fin b => Fin (f a b)
  | _, _ => NonFinite
  end.

Definition dadd : double -> double -> double := dlift2 Rplus.
Definition dsub : double -> double -> double := dlift2 Rminus.
Definition dmul : double -> double -> double := dlift2 Rmult.

(** [x / y]: a zero divisor gives an infinity or a NaN.  (A finite value
    divided by an infinity would be finite again; no divisor of the source
    is the result of a computation that can be non-finite: the divisors are
    [R0] and constants.) *)
Definition ddiv (x y : double) : double :=
  match x, y with
  | Fin a, Fin b => if Req_dec_T b 0 then NonFinite else Fin (a / b)
  | _, _ => NonFinite
  end.

(** [sqrt (x)]: a negative argument gives a NaN. *)
Definition dsqrt (x : double) : double :=
  match x with
  | Fin a => if Rlt_dec a 0 then NonFinite else Fin (sqrt a)
  | NonFinite => NonFinite
  end.

(** [pow (x, i)] for an integral exponent [i >= 0]. *)
Definition dpow (x : double) (i : nat) : double :=
  match x with
  | Fin a => Fin (a ^ i)
  | NonFinite => NonFinite
  end.

Definition is_finite (x : double) : Prop := exists r : R, x = Fin r.

Declare Scope double_scope.
Delimit Scope double_scope with D.
Bind Scope double_scope with double.
Infix "+" := dadd : double_scope.
Infix "-" := dsub : double_scope.
Infix "*" := dmul : double_scope.
Infix "/" := ddiv : double_scope.

(** ** The header [rtd_calculator.h]

    The header is not among the sources: the selector codes and the
    polynomial constants A, B, C of each family are its macros.  The
    calculator is embedded over an arbitrary header; [GOST_6651] below is
    the header of the standard. *)

Class rtd_calculator_h : Type := {
  PT_385 : Z;
  PT_391 : Z;
  M_428 : Z;
  N_617 : Z;
  PT_A_385 : R;
  PT_B_385 : R;
  PT_C_385 : R;
  PT_A_391 : R;
  PT_B_391 : R;
  PT_C_391 : R;
  M_A_428 : R;
  M_B_428 : R;
  M_C_428 : R;
  N_A_617 : R;
  N_B_617 : R;
  N_C_617 : R
}.

(** ** Coefficient tables of the inverse power series *)

Definition PT_D_385 : list R := [255.819; 9.14550; -2.92363; 1.79090].
Definition PT_D_391 : list R := [251.903; 8.80035; -2.91506; 1.67611].
Definition M_D_428 : list R := [233.87; 7.9370; -2.0062; -0.3953].
Definition N_D_617 : list R := [144.096; -25.502; 4.4876].

(** [D[i]] for a table [D]. *)
Definition at_index (D : list R) (i : nat) : R := nth i D 0.

Section Calculator.

Context {h : rtd_calculator_h}.

Local Open Scope double_scope.

(** Platinum: temperature from resistance. *)
Definition Get_Temperature_PT (Resistance R0 : R) (Type_ : Z) : double :=
  let Temperature : double := Fin 0 in
  if Rlt_dec Resistance R0 then
    fold_left
      (fun (Temperature : double) (i : nat) =>
         if (Type_ =? PT_385)%Z then
           Temperature + at_index PT_D_385 (i - 1) * dpow (Resistance / R0 - 1) i
         else if (Type_ =? PT_391)%Z then
           Temperature + at_index PT_D_391 (i - 1) * dpow (Resistance / R0 - 1) i
         else Temperature)
      (seq 1 4) Temperature
  else
    if (Type_ =? PT_385)%Z then
      (dsqrt (dpow PT_A_385 2 - 4 * PT_B_385 * (1 - Resistance / R0)) - PT_A_385)
      / (2 * PT_B_385)
    else if (Type_ =? PT_391)%Z then
      (dsqrt (dpow PT_A_391 2 - 4 * PT_B_391 * (1 - Resistance / R0)) - PT_A_391)
      / (2 * PT_B_391)
    else Temperature.

(** Platinum: resistance from temperature. *)
Definition Get_Resistance_PT (Temperature R0 : R) (Type_ : Z) : double :=
  let Resistance : double := Fin 0 in
  if Rlt_dec Temperature 0 then
    if (Type_ =? PT_385)%Z then
      R0 * (1 + PT_A_385 * Temperature + PT_B_385 * dpow Temperature 2
            + PT_C_385 * (Temperature - 100) * dpow Temperature 3)
    else if (Type_ =? PT_391)%Z then
      R0 * (1 + PT_A_391 * Temperature + PT_B_391 * dpow Temperature 2
            + PT_C_391 * (Temperature - 100) * dpow Temperature 3)
    else Resistance
  else
    if (Type_ =? PT_385)%Z then
      R0 * (1 + PT_A_385 * Temperature + PT_B_385 * dpow Temperature 2)
    else if (Type_ =? PT_391)%Z then
      R0 * (1 + PT_A_391 * Temperature + PT_B_391 * dpow Temperature 2)
    else Resistance.

(** Copper: temperature from resistance. *)
Definition Get_Temperature_M (Resistance R0 : R) (Type_ : Z) : double :=
  let Temperature : double := Fin 0 in
  if Rlt_dec Resistance R0 then
    fold_left
      (fun (Temperature : double) (i : nat) =>
         if (Type_ =? M_428)%Z then
           Temperature + at_index M_D_428 (i - 1) * dpow (Resistance / R0 - 1) i
         else Temperature)
      (seq 1 4) Temperature
  else
    if (Type_ =? M_428)%Z then (Resistance / R0 - 1) / M_A_428
    else Temperature.

(** Copper: resistance from temperature. *)
Definition Get_Resistance_M (Temperature R0 : R) (Type_ : Z) : double :=
  let Resistance : double := Fin 0 in
  if Rlt_dec Temperature 0 then
    if (Type_ =? M_428)%Z then
      R0 * (1 + M_A_428 * Temperature + M_B_428 * Temperature * (Temperature + 6.7)
            + M_C_428 * dpow Temperature 3)
    else Resistance
  else
    if (Type_ =? M_428)%Z then R0 * (1 + M_A_428 * Temperature)
    else Resistance.

(** Nickel: the knee resistance [Temp_start] chosen from [R0]
    (the first statements of [Get_Temperature_N]). *)
Definition Temp_start (R0 : R) : R :=
  if Req_dec_T R0 100 then 161.72
  else if Req_dec_T R0 500 then 808.59
  else if Req_dec_T R0 1000 then 1617.2
  else 0.

(** Nickel: temperature from resistance. *)
Definition Get_Temperature_N (Resistance R0 : R) (Type_ : Z) : double :=
  let Temperature : double := Fin 0 in
  if (Type_ =? N_617)%Z then
    if Rlt_dec Resistance (Temp_start R0) then
      (dsqrt (dpow N_A_617 2 - 4 * N_B_617 * (1 - Resistance / R0)) - N_A_617)
      / (2 * N_B_617)
    else
      fold_left
        (fun (Temperature : double) (i : nat) =>
           Temperature + at_index N_D_617 (i - 1) * dpow (Resistance / R0 - 1.6172) i)
        (seq 1 3) Temperature
      + 100
  else Temperature.

(** Nickel: resistance from temperature. *)
Definition Get_Resistance_N (Temperature R0 : R) (Type_ : Z) : double :=
  let Resistance : double := Fin 0 in
  if (Type_ =? N_617)%Z then
    if Rlt_dec Temperature 100 then
      R0 * (1 + N_A_617 * Temperature + N_B_617 * dpow Temperature 2)
    else
      R0 * (1 + N_A_617 * Temperature + N_B_617 * dpow Temperature 2
            + N_C_617 * (Temperature - 100) * dpow Temperature 2)
  else Resistance.

End Calculator.

(** ** The MAX31865 driver: resistance read-out ([MAX31865.c])

    The SPI bus is a log of what the driver does on it; the seven bytes the
    chip answers to the poll are an argument of the read-out
    ([MAX31865_rx_buffer], read as 0 beyond its end). *)

Definition MAX31865_R_REF : R := 428.5.

Inductive spi_event : Type :=
| NSS_ON
| NSS_OFF
| Transmit (data : list Z)
| Receive (size : nat).

Record driver_state : Type := {
  MAX31865_Sensor_Error : bool;
  spi_bus : list spi_event
}.

Definition spi (e : spi_event) (s : driver_state) : driver_state :=
  {| MAX31865_Sensor_Error := MAX31865_Sensor_Error s;
     spi_bus := spi_bus s ++ [e] |}.

Definition set_Sensor_Error (b : bool) (s : driver_state) : driver_state :=
  {| MAX31865_Sensor_Error := b; spi_bus := spi_bus s |}.

(** A conversion to [uint16_t]. *)
Definition to_uint16 (v : Z) : Z := (v mod 2 ^ 16)%Z.

Definition MAX31865_Init (num_wires : Z) (s : driver_state) : driver_state :=
  let s := set_Sensor_Error false s in
  let MAX31865_Configuration_register_write : list Z :=
    if ((num_wires =? 2) || (num_wires =? 4))%Z then [0x80; 0xC3]%Z
    else if (num_wires =? 3)%Z then [0x80; 0xD3]%Z
    else [0x80; 0x00]%Z in
  let s := spi NSS_ON s in
  let s := spi (Transmit MAX31865_Configuration_register_write) s in
  spi NSS_OFF s.

Record rx_data_MAX31865 : Type := {
  RTD_Resistance_Registers : Z;
  High_Fault_Threshold : Z;
  Low_Fault_Threshold : Z;
  Fault_Status : Z
}.

Definition MAX31865_Get_Resistance (MAX31865_rx_buffer : list Z) (s : driver_state)
  : double * driver_state :=
  let rx (i : nat) : Z := nth i MAX31865_rx_buffer 0%Z in
  let MAX31865_start_address_of_the_poll : Z := 0x01%Z in
  let s := spi NSS_ON s in
  let s := spi (Transmit [MAX31865_start_address_of_the_poll]) s in
  let s := spi (Receive 7) s in
  let s := spi NSS_OFF s in
  let MAX31865_receieve_data : rx_data_MAX31865 :=
    {| RTD_Resistance_Registers :=
         to_uint16 (Z.shiftr (Z.lor (Z.shiftl (rx 0%nat) 8) (rx 1%nat)) 1);
       High_Fault_Threshold :=
         to_uint16 (Z.shiftr (Z.lor (Z.shiftl (rx 2%nat) 8) (rx 3%nat)) 1);
       Low_Fault_Threshold :=
         to_uint16 (Z.lor (Z.shiftl (rx 4%nat) 8) (rx 5%nat));
       Fault_Status := rx 6%nat |} in
  let s :=
    if (Fault_Status MAX31865_receieve_data >? 0x00)%Z then
      let s := set_Sensor_Error true s in
      let s := MAX31865_Init 3 s in
      set_Sensor_Error false s
    else s in
  let data : double :=
    (Fin (IZR (RTD_Resistance_Registers MAX31865_receieve_data)) * MAX31865_R_REF
     / 32768)%D in
  (data, s).

(** The 16-bit big-endian value of two bytes, and the 15-bit code of the RTD
    register: that value shifted right by one. *)
Definition big_endian_16 (b0 b1 : Z) : Z := (b0 * 256 + b1)%Z.

Definition adc_code (b0 b1 : Z) : Z := Z.shiftr (big_endian_16 b0 b1) 1.

Definition is_byte (b : Z) : Prop := (0 <= b < 256)%Z.

(** ** The header of the standard *)

(** Modelled from the spec: the macros of [rtd_calculator.h], which is
    missing from the sources.  The spec says of the constants A, B, C that
    they are "drawn from the governing standard" and "must match published
    6-significant-digit constants"; the source computes "according to GOST
    6651-2009", whose constants these are (they give back the resistance
    ranges listed at the head of [rtd_calculator.c]).  The selector codes
    appear nowhere: the driver calls
    [Get_Temperature_PT (Resistance, PT100_R0, 0)] for its Pt100, which
    gives [PT_385] the code 0, and the other codes are taken distinct.  No
    theorem depends on the codes beyond [PT_385 <> PT_391]. *)
#[export] Instance GOST_6651 : rtd_calculator_h := {|
  PT_385 := 0;
  PT_391 := 1;
  M_428 := 2;
  N_617 := 3;
  PT_A_385 := 3.9083e-3;
  PT_B_385 := -5.775e-7;
  PT_C_385 := -4.183e-12;
  PT_A_391 := 3.9690e-3;
  PT_B_391 := -5.841e-7;
  PT_C_391 := -4.330e-12;
  M_A_428 := 4.28e-3;
  M_B_428 := -6.2032e-7;
  M_C_428 := 8.5154e-10;
  N_A_617 := 5.4963e-3;
  N_B_617 := 6.7556e-6;
  N_C_617 := 9.2004e-9
|}.

(** ** The formulas of the specification *)

(** [sum_1_to n f] is the sum of [f i] for [i = 1 .. n]. *)
Fixpoint sum_1_to (n : nat) (f : nat -> R) : R :=
  match n with
  | O => 0
  | S k => sum_1_to k f + f (S k)
  end.

(** The [n]-term power series [sum of D[i-1] * x^i for i = 1 .. n]. *)
Definition power_series (D : list R) (n : nat) (x : R) : R :=
  sum_1_to n (fun i => at_index D (i - 1) * x ^ i).

(** The argument of the square root in the quadratic branches. *)
Definition discriminant (A B Resistance R0 : R) : R :=
  A ^ 2 - 4 * B * (1 - Resistance / R0).

(** The closed-form root [(sqrt (A^2 - 4 B (1 - R/R0)) - A) / (2 B)]: a real
    number when [R0] and [2 B] are not zero and the discriminant is not
    negative, no finite value otherwise. *)
Definition quadratic_root (A B Resistance R0 : R) : double :=
  if Req_dec_T R0 0 then NonFinite
  else if Rlt_dec (discriminant A B Resistance R0) 0 then NonFinite
  else if Req_dec_T (2 * B) 0 then NonFinite
  else Fin ((sqrt (discriminant A B Resistance R0) - A) / (2 * B)).

(** [100 + sum of D[i-1] * (R/R0 - 1.6172)^i for i = 1 .. 3], the nickel
    series; no finite value when [R0] is zero. *)
Definition nickel_series (Resistance R0 : R) : double :=
  if Req_dec_T R0 0 then NonFinite
  else Fin (100 + power_series N_D_617 3 (Resistance / R0 - 1.6172)).

(** Feeding the result of one conversion to the other. *)
Definition and_then (x : double) (f : R -> double) : double :=
  match x with
  | Fin r => f r
  | NonFinite => NonFinite
  end.

(** [near x y eps]: [x] is a finite value within [eps] of [y]. *)
Definition near (x : double) (y eps : R) : Prop :=
  exists r : R, x = Fin r /\ Rabs (r - y) <= eps.

(** ** Resistance ratios

    The factor of [R0] in the three temperature-to-resistance operations,
    as a real function of the temperature ([Get_Resistance_PT_ratio] and
    its companions relate them to the operations). *)

Definition ratio_PT (A B C T : R) : R :=
  if Rlt_dec T 0 then 1 + A * T + B * T ^ 2 + C * (T - 100) * T ^ 3
  else 1 + A * T + B * T ^ 2.

Definition ratio_M (A B C T : R) : R :=
  if Rlt_dec T 0 then 1 + A * T + B * T * (T + 6.7) + C * T ^ 3
  else 1 + A * T.

Definition ratio_N (A B C T : R) : R :=
  if Rlt_dec T 100 then 1 + A * T + B * T ^ 2
  else 1 + A * T + B * T ^ 2 + C * (T - 100) * T ^ 2.

(** [x] and [y] are finite and [x < y]. *)
Definition dlt (x y : double) : Prop :=
  match x, y with
  | Fin a, Fin b => a < b
  | _, _ => False
  end.

(** ** Polynomials with integer coefficients

    The tool that bounds the error of the inverse power series: a
    polynomial is moved to the centre of an interval and bounded there by
    the absolute values of its coefficients. *)

(** Coefficients from the lowest degree on. *)
Definition zpoly : Type := list Z.

Fixpoint zeval (p : zpoly) (x : R) : R :=
  match p with
  | [] => 0
  | c :: p' => IZR c + x * zeval p' x
  end.

Fixpoint zadd (p q : zpoly) : zpoly :=
  match p, q with
  | [], _ => q
  | _, [] => p
  | a :: p', b :: q' => (a + b)%Z :: zadd p' q'
  end.

Definition zscale (c : Z) (p : zpoly) : zpoly := map (Z.mul c) p.

Fixpoint zmul (p q : zpoly) : zpoly :=
  match p with
  | [] => []
  | a :: p' => zadd (zscale a q) (0%Z :: zmul p' q)
  end.

(** [zcomp p q] is the polynomial [p (q (x))]. *)
Fixpoint zcomp (p q : zpoly) : zpoly :=
  match p with
  | [] => []
  | a :: p' => zadd [a] (zmul q (zcomp p' q))
  end.

(** A bound of [|p (s)|] for [|s| <= rho]. *)
Fixpoint zabs (p : zpoly) (rho : Z) : Z :=
  match p with
  | [] => 0%Z
  | c :: p' => (Z.abs c + rho * zabs p' rho)%Z
  end.

(** [|p| <= bound] on the interval of centre [m] and radius [rho]. *)
Definition zcheck_at (p : zpoly) (m rho bound : Z) : bool :=
  (zabs (zcomp p [m; 1%Z]) rho <=? bound)%Z.

(** [|p| <= bound] on the [n] consecutive intervals of radius [rho] from
    [lo] on. *)
Fixpoint zcheck_from (p : zpoly) (lo rho : Z) (n : nat) (bound : Z) : bool :=
  match n with
  | O => true
  | S k =>
      zcheck_at p (lo + rho) rho bound
      && zcheck_from p (lo + 2 * rho) rho k bound
  end.

(** ** Round-trip error polynomials of the standard

    For each power series of the source, the polynomial
    [series (ratio (T)) - T] in the temperature [T], with the constants of
    [GOST_6651] and of the tables [D], scaled to integers: the ratio by
    [10^15], the platinum and copper errors by [10^65], the nickel errors
    by [10^49]. *)

(** [10^15 (A T + B T^2 + C (T - 100) T^3)], platinum 385 and 391. *)
Definition ZU_385 : zpoly := [0; 3908300000000; -577500000; 418300; -4183]%Z.
Definition ZU_391 : zpoly := [0; 3969000000000; -584100000; 433000; -4330]%Z.

(** [10^15 (A T + B T (T + 6.7) + C T^3)], copper. *)
Definition ZU_428 : zpoly := [0; 4275843856000; -620320000; 851540]%Z.

(** [10^15 (1 + A T + B T^2 + C (T - 100) T^2 - 1.6172)], nickel from
    100 degrees on. *)
Definition ZU_617 : zpoly :=
  [-617200000000000; 5496300000000; 5835560000; 9200400]%Z.

(** [10^15 (1 + A T + B T^2 - 1.6172)] for [T = s / 100], nickel just
    below 100 degrees. *)
Definition ZU_617_below : zpoly := [-617200000000000; 54963000000; 675560]%Z.

(** The series [sum of D[i-1] y^i], times [10^65], in [10^15 y]. *)
Definition ZS_385 : zpoly :=
  Eval vm_compute in
    [0; 25581900 * 10 ^ 45; 914550 * 10 ^ 30; -292363 * 10 ^ 15; 179090]%Z.
Definition ZS_391 : zpoly :=
  Eval vm_compute in
    [0; 25190300 * 10 ^ 45; 880035 * 10 ^ 30; -291506 * 10 ^ 15; 167611]%Z.
Definition ZS_428 : zpoly :=
  Eval vm_compute in
    [0; 23387000 * 10 ^ 45; 793700 * 10 ^ 30; -200620 * 10 ^ 15; -39530]%Z.

(** The series [100 + sum of D[i-1] y^i], times [10^49], in [10^15 y]. *)
Definition ZS_617 : zpoly :=
  Eval vm_compute in
    [100 * 10 ^ 49; 1440960 * 10 ^ 30; -255020 * 10 ^ 15; 44876]%Z.

(** [- 10^k T]. *)
Definition Zminus_T (k : Z) : zpoly := [0; - 10 ^ k]%Z.

Definition ZE_385 : zpoly := zadd (zcomp ZS_385 ZU_385) (Zminus_T 65).
Definition ZE_391 : zpoly := zadd (zcomp ZS_391 ZU_391) (Zminus_T 65).
Definition ZE_428 : zpoly := zadd (zcomp ZS_428 ZU_428) (Zminus_T 65).
Definition ZE_617 : zpoly := zadd (zcomp ZS_617 ZU_617) (Zminus_T 49).
Definition ZE_617_below : zpoly := zadd (zcomp ZS_617 ZU_617_below) (Zminus_T 47).

(** The tolerance of the round trip, in degrees. *)
Definition round_trip_tolerance : R := 2.2e-3.

(** Resistance to temperature after temperature to resistance. *)
Definition round_trip (to_R to_T : R -> R -> Z -> double) (T R0 : R) (Type_ : Z)
  : double :=
  and_then (to_R T R0 Type_) (fun Resistance => to_T Resistance R0 Type_).

(** ** The rest of the driver *)

(** [MAX31865_Configuration_info]: the configuration register is polled
    and the byte the chip answers, [MAX31865_Configuration], is
    returned. *)
Definition MAX31865_Configuration_info (MAX31865_Configuration : Z) (s : driver_state)
  : Z * driver_state :=
  let read_data : Z := 0x00%Z in
  let s := spi NSS_ON s in
  let s := spi (Transmit [read_data]) s in
  let s := spi (Receive 1) s in
  let s := spi NSS_OFF s in
  (MAX31865_Configuration, s).

(** [MAX31865_Get_Temperature].  [PT100_R0] is a macro that no source file
    defines: a parameter.  The selector is the literal 0 of the source. *)
Definition MAX31865_Get_Temperature {h : rtd_calculator_h} (PT100_R0 : R)
    (Resistance : R) : double :=
  let Temperature : double := Get_Temperature_PT Resistance PT100_R0 0 in
  Temperature.

(** A program that uses the driver is a sequence of calls, each with what
    the chip answers on the bus. *)
Inductive driver_call : Type :=
| Call_Init (num_wires : Z)
| Call_Configuration_info (MAX31865_Configuration : Z)
| Call_Get_Resistance (MAX31865_rx_buffer : list Z).

Definition call (s : driver_state) (c : driver_call) : driver_state :=
  match c with
  | Call_Init num_wires => MAX31865_Init num_wires s
  | Call_Configuration_info answer => snd (MAX31865_Configuration_info answer s)
  | Call_Get_Resistance answer => snd (MAX31865_Get_Resistance answer s)
  end.

Definition run (calls : list driver_call) (s : driver_state) : driver_state :=
  fold_left call calls s.

(** Reading a bus log from a state of chip select ([true]: asserted): the
    state of chip select at the end, when chip select is asserted only
    while released, released only while asserted, and bytes move only while
    it is asserted; nothing otherwise. *)
Fixpoint chip_select_after (selected : bool) (bus : list spi_event) : option bool :=
  match bus with
  | [] => Some selected
  | NSS_ON :: bus' => if selected then None else chip_select_after true bus'
  | NSS_OFF :: bus' => if selected then chip_select_after false bus' else None
  | Transmit _ :: bus' => if selected then chip_select_after true bus' else None
  | Receive _ :: bus' => if selected then chip_select_after true bus' else None
  end.

(** The value last written to the configuration register (address 0x80)
    on a bus log, [cfg] when there is none. *)
Fixpoint last_configuration (bus : list spi_event) (cfg : option Z) : option Z :=
  match bus with
  | [] => cfg
  | Transmit [address; value] :: bus' =>
      if (address =? 0x80)%Z then last_configuration bus' (Some value)
      else last_configuration bus' cfg
  | _ :: bus' => last_configuration bus' cfg
  end.

(** The fault status byte of an answer to the poll. *)
Definition fault_status (MAX31865_rx_buffer : list Z) : Z :=
  nth 6 MAX31865_rx_buffer 0%Z.

(** ** Statements that survive rounding

    The theorems on orders, tolerances and magnitudes are proved over the
    exact reals but stated with room for the rounding of binary64: a
    nominal resistance far from overflow and underflow, inputs a margin
    apart, results within a tolerance. *)

(** Nominal resistances from a milliohm to a megohm. *)
Definition nominal_R0 (R0 : R) : Prop := 1e-3 <= R0 <= 1e6.

(** [x] and [y] are finite and [y] is at least [d] above [x]. *)
Definition rises_by (x y : double) (d : R) : Prop :=
  match x, y with
  | Fin a, Fin b => a + d <= b
  | _, _ => False
  end.


(** ** The copper resistance in binary64

    [Get_Resistance_M] with the doubles of the machine: the kernel's
    binary64 numbers, whose [+] and [*] round to nearest as the C
    operators do.  [pow] belongs to the C library and is a parameter; the
    branch from 0 degrees on does not call it. *)
Module Binary64.

Import PrimFloat.

Local Open Scope float_scope.

#[local] Set Warnings "-inexact-float".

(** Modelled from the spec: the copper macros of [rtd_calculator.h], which
    is missing from the sources, as the doubles nearest to the decimal
    constants of [GOST_6651]. *)
Definition M_A_428 : float := 4.28e-3.
Definition M_B_428 : float := -6.2032e-7.
Definition M_C_428 : float := 8.5154e-10.

Section Libm.

Variable pow : float -> float -> float.

Definition Get_Resistance_M (Temperature R0 : float) (Type_ : Z) : float :=
  let Resistance : float := 0 in
  if Temperature <? 0 then
    if (Type_ =? M_428)%Z then
      R0 * (1 + M_A_428 * Temperature + M_B_428 * Temperature * (Temperature + 6.7)
            + M_C_428 * pow Temperature 3)
    else Resistance
  else
    if (Type_ =? M_428)%Z then R0 * (1 + M_A_428 * Temperature)
    else Resistance.

End Libm.

(** A [pow] by products, for the exponent 3 of the source. *)
Definition pow_by_products (x y : float) : float := x * x * x.

End Binary64.

(** ** Tactics *)

(** Unfolding of the finite cases of the lifted operations. *)
Ltac dfin := cbn [dadd dsub dmul dpow dlift2 fold_left seq and_then].

(** Replaces the macros of the header by their values. *)
Ltac gost :=
  cbv beta iota delta
    [PT_385 PT_391 M_428 N_617 PT_A_385 PT_B_385 PT_C_385 PT_A_391 PT_B_391
     PT_C_391 M_A_428 M_B_428 M_C_428 N_A_617 N_B_617 N_C_617 GOST_6651].

(** * Properties *)

(** ** Arithmetic of doubles *)

Lemma ddiv_Fin (a b : R) : b <> 0 -> ddiv (Fin a) (Fin b) = Fin (a / b).
Proof.
  intros Hb. unfold ddiv. destruct (Req_dec_T b 0) as [E | _]; [contradiction | reflexivity].
Qed.

Lemma ddiv_zero (a : R) : ddiv (Fin a) (Fin 0) = NonFinite.
Proof.
  unfold ddiv. destruct (Req_dec_T 0 0) as [_ | N]; [reflexivity | now elim N].
Qed.

Lemma nominal_R0_pos (R0 : R) : nominal_R0 R0 -> 0 < R0.
Proof. unfold nominal_R0. lra. Qed.

Lemma rises_by_Fin (a b d : R) : a + d <= b -> rises_by (Fin a) (Fin b) d.
Proof. intros H. exact H. Qed.

Lemma rises_strictly (x y : double) (d : R) : 0 < d -> rises_by x y d -> dlt x y.
Proof.
  destruct x as [a |], y as [b |]; cbn [rises_by dlt]; try tauto.
  intros Hd Hr. lra.
Qed.


Lemma Fin_inj (a b : R) : Fin a = Fin b -> a = b.
Proof. now intros [= ->]. Qed.

(** ** The shape of the closed-form branches *)

(** The source's quadratic expression is the closed-form root. *)
Lemma quadratic_expression (A B Resistance R0 : R) :
  ((dsqrt (dpow A 2 - 4 * B * (1 - Resistance / R0)) - A) / (2 * B))%D
  = quadratic_root A B Resistance R0.
Proof.
  unfold quadratic_root, discriminant.
  destruct (Req_dec_T R0 0) as [-> | HR0].
  - rewrite ddiv_zero. reflexivity.
  - rewrite (ddiv_Fin _ _ HR0). dfin. unfold dsqrt, ddiv.
    destruct (Rlt_dec _ 0) as [_ | _].
    + reflexivity.
    + dfin. unfold ddiv. destruct (Req_dec_T (2 * B) 0); reflexivity.
Qed.

(** The source's accumulation loop over a power series. *)
Lemma series_loop (D : list R) (x : R) (n : nat) (acc : R) :
  fold_left (fun (Temperature : double) (i : nat) =>
               (Temperature + at_index D (i - 1) * dpow x i)%D)
            (seq 1 n) (Fin acc)
  = Fin (acc + power_series D n x).
Proof.
  unfold power_series. induction n as [| n IH].
  - cbn. f_equal. ring.
  - rewrite seq_S, fold_left_app, IH. cbn [fold_left sum_1_to Nat.add].
    dfin. f_equal. ring.
Qed.

Lemma Zeqb_neq_false (a b : Z) : a <> b -> (a =? b)%Z = false.
Proof. intros Hab. now apply Z.eqb_neq. Qed.

(** ** The branches of the resistance-to-temperature operations *)

Section Branches.

Context {h : rtd_calculator_h}.

Lemma Get_Temperature_PT_below (Resistance R0 : R) :
  R0 <> 0 -> Resistance < R0 ->
  Get_Temperature_PT Resistance R0 PT_385
    = Fin (power_series PT_D_385 4 (Resistance / R0 - 1)) /\
  (PT_385 <> PT_391 ->
   Get_Temperature_PT Resistance R0 PT_391
     = Fin (power_series PT_D_391 4 (Resistance / R0 - 1))).
Proof.
  intros HR0 Hcmp. unfold Get_Temperature_PT.
  destruct (Rlt_dec Resistance R0) as [_ | N]; [| contradiction].
  rewrite (ddiv_Fin _ _ HR0). cbn [dsub dlift2]. split.
  - rewrite Z.eqb_refl, series_loop. f_equal. ring.
  - intros Hcodes. rewrite Z.eqb_refl, Zeqb_neq_false by congruence.
    rewrite series_loop. f_equal. ring.
Qed.

Lemma Get_Temperature_PT_above (Resistance R0 : R) :
  ~ Resistance < R0 ->
  Get_Temperature_PT Resistance R0 PT_385
    = quadratic_root PT_A_385 PT_B_385 Resistance R0 /\
  (PT_385 <> PT_391 ->
   Get_Temperature_PT Resistance R0 PT_391
     = quadratic_root PT_A_391 PT_B_391 Resistance R0).
Proof.
  intros Hcmp. unfold Get_Temperature_PT.
  destruct (Rlt_dec Resistance R0) as [L | _]; [contradiction |]. split.
  - rewrite Z.eqb_refl. apply quadratic_expression.
  - intros Hcodes. rewrite Z.eqb_refl, Zeqb_neq_false by congruence.
    apply quadratic_expression.
Qed.

Lemma Get_Temperature_M_below (Resistance R0 : R) :
  R0 <> 0 -> Resistance < R0 ->
  Get_Temperature_M Resistance R0 M_428
    = Fin (power_series M_D_428 4 (Resistance / R0 - 1)).
Proof.
  intros HR0 Hcmp. unfold Get_Temperature_M.
  destruct (Rlt_dec Resistance R0) as [_ | N]; [| contradiction].
  rewrite (ddiv_Fin _ _ HR0). cbn [dsub dlift2].
  rewrite Z.eqb_refl, series_loop. f_equal. ring.
Qed.

Lemma Get_Temperature_M_above (Resistance R0 : R) :
  R0 <> 0 -> M_A_428 <> 0 -> ~ Resistance < R0 ->
  Get_Temperature_M Resistance R0 M_428 = Fin ((Resistance / R0 - 1) / M_A_428).
Proof.
  intros HR0 HA Hcmp. unfold Get_Temperature_M.
  destruct (Rlt_dec Resistance R0) as [L | _]; [contradiction |].
  rewrite Z.eqb_refl, (ddiv_Fin _ _ HR0). cbn [dsub dlift2].
  now apply ddiv_Fin.
Qed.

Lemma Get_Temperature_N_below (Resistance R0 : R) :
  Resistance < Temp_start R0 ->
  Get_Temperature_N Resistance R0 N_617
    = quadratic_root N_A_617 N_B_617 Resistance R0.
Proof.
  intros Hcmp. unfold Get_Temperature_N. rewrite Z.eqb_refl.
  destruct (Rlt_dec Resistance (Temp_start R0)) as [_ | N]; [| contradiction].
  apply quadratic_expression.
Qed.

Lemma Get_Temperature_N_above (Resistance R0 : R) :
  R0 <> 0 -> ~ Resistance < Temp_start R0 ->
  Get_Temperature_N Resistance R0 N_617
    = Fin (100 + power_series N_D_617 3 (Resistance / R0 - 1.6172)).
Proof.
  intros HR0 Hcmp. unfold Get_Temperature_N. rewrite Z.eqb_refl.
  destruct (Rlt_dec Resistance (Temp_start R0)) as [L | _]; [contradiction |].
  rewrite (ddiv_Fin _ _ HR0). cbn [dsub dlift2].
  rewrite series_loop. cbn [dadd dlift2]. f_equal. ring.
Qed.

End Branches.

Lemma Temp_start_values :
  Temp_start 100 = 161.72 /\ Temp_start 500 = 808.59 /\ Temp_start 1000 = 1617.2.
Proof.
  unfold Temp_start. repeat split.
  - destruct (Req_dec_T 100 100) as [_ | N]; [reflexivity | now elim N].
  - destruct (Req_dec_T 500 100) as [E | _]; [lra |].
    destruct (Req_dec_T 500 500) as [_ | N]; [reflexivity | now elim N].
  - destruct (Req_dec_T 1000 100) as [E | _]; [lra |].
    destruct (Req_dec_T 1000 500) as [E | _]; [lra |].
    destruct (Req_dec_T 1000 1000) as [_ | N]; [reflexivity | now elim N].
Qed.


(** ** Properties that hold for every header *)

Section AnyHeader.

Context {h : rtd_calculator_h}.

(** C1.  Platinum (385 and 391), positive [R0]: below [R0] the result is the
    4-term power series in [Resistance / R0 - 1] over the family's table
    [D]; at or above [R0] it is the closed-form quadratic root with the
    family's [A] and [B].  Only the comparison of the resistance with [R0]
    selects the branch. *)
Theorem Get_Temperature_PT_formula (Resistance R0 : R)
    (HR0 : 0 < R0) (Hcodes : PT_385 <> PT_391) :
  (Resistance < R0 ->
   Get_Temperature_PT Resistance R0 PT_385
     = Fin (power_series PT_D_385 4 (Resistance / R0 - 1)) /\
   Get_Temperature_PT Resistance R0 PT_391
     = Fin (power_series PT_D_391 4 (Resistance / R0 - 1))) /\
  (R0 <= Resistance ->
   Get_Temperature_PT Resistance R0 PT_385
     = quadratic_root PT_A_385 PT_B_385 Resistance R0 /\
   Get_Temperature_PT Resistance R0 PT_391
     = quadratic_root PT_A_391 PT_B_391 Resistance R0).
Proof.
  assert (HR0' : R0 <> 0) by lra.
  split; intros Hcmp.
  - destruct (Get_Temperature_PT_below Resistance R0 HR0' Hcmp) as [E1 E2].
    split; [exact E1 | exact (E2 Hcodes)].
  - destruct (Get_Temperature_PT_above Resistance R0) as [E1 E2]; [lra |].
    split; [exact E1 | exact (E2 Hcodes)].
Qed.

(** C2.  Nickel with [R0] one of 100, 500, 1000: the knee [Temp_start] is
    161.72, 808.59, 1617.2; below the knee the result is the closed-form
    quadratic root, at or above it 100 plus the 3-term power series in
    [Resistance / R0 - 1.6172]. *)
Theorem Get_Temperature_N_formula (Resistance R0 : R)
    (HR0 : R0 = 100 \/ R0 = 500 \/ R0 = 1000) :
  (Temp_start 100 = 161.72 /\ Temp_start 500 = 808.59 /\ Temp_start 1000 = 1617.2) /\
  (Resistance < Temp_start R0 ->
   Get_Temperature_N Resistance R0 N_617
     = quadratic_root N_A_617 N_B_617 Resistance R0) /\
  (Temp_start R0 <= Resistance ->
   Get_Temperature_N Resistance R0 N_617
     = Fin (100 + power_series N_D_617 3 (Resistance / R0 - 1.6172))).
Proof.
  split; [exact Temp_start_values | split]; intros Hcmp.
  - now apply Get_Temperature_N_below.
  - apply Get_Temperature_N_above; lra.
Qed.

(** C3.  At temperature 0 every family returns exactly [R0], whatever
    [R0] is. *)
Theorem Get_Resistance_at_zero (R0 : R) :
  Get_Resistance_PT 0 R0 PT_385 = Fin R0 /\
  Get_Resistance_PT 0 R0 PT_391 = Fin R0 /\
  Get_Resistance_M 0 R0 M_428 = Fin R0 /\
  Get_Resistance_N 0 R0 N_617 = Fin R0.
Proof.
  unfold Get_Resistance_PT, Get_Resistance_M, Get_Resistance_N.
  destruct (Rlt_dec 0 0) as [L | _]; [lra |].
  destruct (Rlt_dec 0 100) as [_ | N]; [| lra].
  rewrite !Z.eqb_refl.
  repeat split; try destruct (PT_391 =? PT_385)%Z; dfin; f_equal; ring.
Qed.

(** C6.  A selector that is not a recognised variant of the operation makes
    it return zero, for every input and every [R0]. *)
Theorem unrecognised_selector_returns_zero (x R0 : R) (Type_ : Z) :
  (Type_ <> PT_385 -> Type_ <> PT_391 ->
   Get_Temperature_PT x R0 Type_ = Fin 0 /\ Get_Resistance_PT x R0 Type_ = Fin 0) /\
  (Type_ <> M_428 ->
   Get_Temperature_M x R0 Type_ = Fin 0 /\ Get_Resistance_M x R0 Type_ = Fin 0) /\
  (Type_ <> N_617 ->
   Get_Temperature_N x R0 Type_ = Fin 0 /\ Get_Resistance_N x R0 Type_ = Fin 0).
Proof.
  split; [| split].
  - intros H1 H2.
    unfold Get_Temperature_PT, Get_Resistance_PT.
    rewrite (Zeqb_neq_false _ _ H1), (Zeqb_neq_false _ _ H2).
    split.
    + destruct (Rlt_dec x R0); reflexivity.
    + destruct (Rlt_dec x 0); reflexivity.
  - intros H1.
    unfold Get_Temperature_M, Get_Resistance_M.
    rewrite (Zeqb_neq_false _ _ H1).
    split.
    + destruct (Rlt_dec x R0); reflexivity.
    + destruct (Rlt_dec x 0); reflexivity.
  - intros H1.
    unfold Get_Temperature_N, Get_Resistance_N.
    rewrite (Zeqb_neq_false _ _ H1). split; reflexivity.
Qed.

(** C10.  Nickel with [R0] none of 100, 500, 1000: the knee stays at its
    initial value 0, so a non-negative resistance is never below it and the
    result is 100 plus the 3-term power series in
    [Resistance / R0 - 1.6172] (no finite value when [R0] is zero). *)
Theorem Get_Temperature_N_other_R0 (Resistance R0 : R)
    (H100 : R0 <> 100) (H500 : R0 <> 500) (H1000 : R0 <> 1000)
    (Hres : 0 <= Resistance) :
  Temp_start R0 = 0 /\
  ~ Resistance < Temp_start R0 /\
  Get_Temperature_N Resistance R0 N_617 = nickel_series Resistance R0 /\
  (R0 <> 0 ->
   Get_Temperature_N Resistance R0 N_617
     = Fin (100 + power_series N_D_617 3 (Resistance / R0 - 1.6172))).
Proof.
  assert (HT : Temp_start R0 = 0).
  { unfold Temp_start.
    destruct (Req_dec_T R0 100); [contradiction |].
    destruct (Req_dec_T R0 500); [contradiction |].
    destruct (Req_dec_T R0 1000); [contradiction | reflexivity]. }
  assert (Hge : ~ Resistance < Temp_start R0) by (rewrite HT; lra).
  repeat split; try assumption.
  - unfold nickel_series. destruct (Req_dec_T R0 0) as [-> | HR0].
    + unfold Get_Temperature_N. rewrite Z.eqb_refl.
      destruct (Rlt_dec Resistance (Temp_start 0)) as [L | _]; [contradiction |].
      rewrite ddiv_zero. reflexivity.
    + now apply Get_Temperature_N_above.
  - intros HR0. now apply Get_Temperature_N_above.
Qed.

End AnyHeader.

(** ** Division by a zero [R0] *)

Section ZeroNominalResistance.

Context {h : rtd_calculator_h}.

(** C7, as the code has it.  No resistance-to-temperature operation guards
    the division by [R0]: with [R0 = 0] and a recognised selector the
    division is performed and the result is not finite, whatever the
    resistance. *)
Theorem zero_R0_not_guarded (Resistance : R) :
  Get_Temperature_PT Resistance 0 PT_385 = NonFinite /\
  Get_Temperature_PT Resistance 0 PT_391 = NonFinite /\
  Get_Temperature_M Resistance 0 M_428 = NonFinite /\
  Get_Temperature_N Resistance 0 N_617 = NonFinite.
Proof.
  unfold Get_Temperature_PT, Get_Temperature_M, Get_Temperature_N.
  rewrite !Z.eqb_refl, !ddiv_zero.
  repeat split.
  - destruct (Rlt_dec Resistance 0); reflexivity.
  - destruct (PT_391 =? PT_385)%Z; destruct (Rlt_dec Resistance 0); reflexivity.
  - destruct (Rlt_dec Resistance 0); reflexivity.
  - destruct (Rlt_dec Resistance (Temp_start 0)); reflexivity.
Qed.

End ZeroNominalResistance.

(** ** Properties of the header of the standard *)

Lemma is_finite_Fin (r : R) : is_finite (Fin r).
Proof. now exists r. Qed.

Lemma not_finite_NonFinite : ~ is_finite NonFinite.
Proof. intros [r Hr]. discriminate Hr. Qed.

Lemma quadratic_root_finite (A B x R0 : R) :
  R0 <> 0 -> B <> 0 ->
  (is_finite (quadratic_root A B x R0) <-> 0 <= discriminant A B x R0).
Proof.
  intros HR0 HB. unfold quadratic_root.
  destruct (Req_dec_T R0 0) as [E | _]; [contradiction |].
  destruct (Rlt_dec (discriminant A B x R0) 0) as [L | N].
  - split; [intros F; now elim not_finite_NonFinite | lra].
  - destruct (Req_dec_T (2 * B) 0) as [E | _]; [lra |].
    split; [lra | intros _; apply is_finite_Fin].
Qed.

(** For [B < 0] the discriminant is non-negative up to the resistance
    [R0 (1 - A^2 / (4 B))], for [0 < B] from it on. *)
Lemma discriminant_sign_neg (A B x R0 : R) :
  0 < R0 -> B < 0 ->
  (0 <= discriminant A B x R0 <-> x <= R0 * (1 - A ^ 2 / (4 * B))).
Proof.
  intros HR0 HB. unfold discriminant.
  assert (Ex : x = R0 * (x / R0)) by (field; lra).
  set (y := x / R0) in *. clearbody y. subst x.
  assert (Ec : A ^ 2 - 4 * B * (1 - y) = (-(4 * B)) * ((1 - A ^ 2 / (4 * B)) - y))
    by (field; lra).
  rewrite Ec. set (c := 1 - A ^ 2 / (4 * B)). clearbody c.
  split; intros Hle; nra.
Qed.

Lemma discriminant_sign_pos (A B x R0 : R) :
  0 < R0 -> 0 < B ->
  (0 <= discriminant A B x R0 <-> R0 * (1 - A ^ 2 / (4 * B)) <= x).
Proof.
  intros HR0 HB. unfold discriminant.
  assert (Ex : x = R0 * (x / R0)) by (field; lra).
  set (y := x / R0) in *. clearbody y. subst x.
  assert (Ec : A ^ 2 - 4 * B * (1 - y) = (4 * B) * (y - (1 - A ^ 2 / (4 * B))))
    by (field; lra).
  rewrite Ec. set (c := 1 - A ^ 2 / (4 * B)). clearbody c.
  split; intros Hle; nra.
Qed.

(** ** The read-out of the driver *)

Lemma lor_bytes (b0 b1 : Z) :
  is_byte b0 -> is_byte b1 ->
  Z.lor (Z.shiftl b0 8) b1 = big_endian_16 b0 b1.
Proof.
  intros H0 H1. unfold is_byte, big_endian_16 in *.
  assert (Hland : Z.land (Z.shiftl b0 8) b1 = 0%Z).
  { apply Z.bits_inj'. intros n Hn.
    rewrite Z.land_spec, Z.bits_0.
    destruct (Z.ltb_spec n 8) as [Hlt | Hge].
    - rewrite Z.shiftl_spec_low by lia. reflexivity.
    - rewrite andb_comm.
      assert (Hb : Z.testbit b1 n = false).
      { destruct (Z.eq_dec b1 0) as [-> | Hnz]; [apply Z.bits_0 |].
        apply Z.bits_above_log2; [lia |].
        apply Z.lt_le_trans with 8%Z; [| assumption].
        apply Z.log2_lt_pow2; lia. }
      rewrite Hb. reflexivity. }
  rewrite <- Z.lxor_lor by assumption.
  rewrite <- Z.add_nocarry_lxor by assumption.
  rewrite Z.shiftl_mul_pow2 by lia. reflexivity.
Qed.

Lemma adc_code_range (b0 b1 : Z) :
  is_byte b0 -> is_byte b1 -> (0 <= adc_code b0 b1 < 2 ^ 15)%Z.
Proof.
  intros H0 H1. unfold adc_code, big_endian_16, is_byte in *.
  rewrite Z.shiftr_div_pow2 by lia. change (2 ^ 1)%Z with 2%Z.
  split.
  - apply Z.div_pos; lia.
  - apply Z.div_lt_upper_bound; lia.
Qed.

(** C9.  The read-out returns [adc_code * R_ref / 32768]: [adc_code] is the
    15-bit register value, the 16-bit big-endian value of the first two
    received bytes shifted right by one, and [R_ref] is 428.5 ohms. *)
Theorem MAX31865_Get_Resistance_value
    (b0 b1 : Z) (rest : list Z) (s : driver_state)
    (H0 : is_byte b0) (H1 : is_byte b1) :
  fst (MAX31865_Get_Resistance (b0 :: b1 :: rest) s)
    = Fin (IZR (adc_code b0 b1) * MAX31865_R_REF / 32768) /\
  MAX31865_R_REF = 428.5 /\
  (0 <= adc_code b0 b1 < 2 ^ 15)%Z.
Proof.
  pose proof (adc_code_range b0 b1 H0 H1) as Hrange.
  repeat split; try apply Hrange.
  unfold MAX31865_Get_Resistance.
  cbn [fst nth RTD_Resistance_Registers].
  rewrite (lor_bytes b0 b1 H0 H1). fold (adc_code b0 b1).
  assert (E : to_uint16 (adc_code b0 b1) = adc_code b0 b1).
  { unfold to_uint16. apply Z.mod_small. lia. }
  rewrite E. cbn [dmul dlift2].
  apply ddiv_Fin. lra.
Qed.

(** ** The factor of [R0] in the resistance *)

Section Ratios.

Context {h : rtd_calculator_h}.

Lemma Get_Resistance_PT_ratio (T R0 : R) :
  Get_Resistance_PT T R0 PT_385 = Fin (R0 * ratio_PT PT_A_385 PT_B_385 PT_C_385 T) /\
  (PT_385 <> PT_391 ->
   Get_Resistance_PT T R0 PT_391 = Fin (R0 * ratio_PT PT_A_391 PT_B_391 PT_C_391 T)).
Proof.
  unfold Get_Resistance_PT, ratio_PT. split.
  - rewrite Z.eqb_refl. destruct (Rlt_dec T 0); dfin; f_equal; ring.
  - intros Hcodes. rewrite Z.eqb_refl, Zeqb_neq_false by congruence.
    destruct (Rlt_dec T 0); dfin; f_equal; ring.
Qed.

Lemma Get_Resistance_M_ratio (T R0 : R) :
  Get_Resistance_M T R0 M_428 = Fin (R0 * ratio_M M_A_428 M_B_428 M_C_428 T).
Proof.
  unfold Get_Resistance_M, ratio_M. rewrite Z.eqb_refl.
  destruct (Rlt_dec T 0); dfin; f_equal; ring.
Qed.

Lemma Get_Resistance_N_ratio (T R0 : R) :
  Get_Resistance_N T R0 N_617 = Fin (R0 * ratio_N N_A_617 N_B_617 N_C_617 T).
Proof.
  unfold Get_Resistance_N, ratio_N. rewrite Z.eqb_refl.
  destruct (Rlt_dec T 100); dfin; f_equal; ring.
Qed.

End Ratios.

(** ** The slope of the resistance *)

Lemma ratio_PT_slope (A B C T1 T2 : R) :
  0 < A -> B < 0 -> C < 0 -> 0 < A + 1700 * B ->
  T1 <= T2 -> T2 <= 850 ->
  (A + 1700 * B) * (T2 - T1) <= ratio_PT A B C T2 - ratio_PT A B C T1.
Proof.
  intros HA HB HC HAB Hle Hhi. unfold ratio_PT.
  set (m := A + 1700 * B) in *.
  assert (Hneg : forall T, T <= 0 ->
            m * (0 - T) <= 1 - (1 + A * T + B * T ^ 2 + C * (T - 100) * T ^ 3)).
  { intros T HT.
    assert (E1 : 1 - (1 + A * T + B * T ^ 2 + C * (T - 100) * T ^ 3)
                 = (- T) * (A + (- B) * (- T) + (- C) * ((100 - T) * T ^ 2)))
      by ring.
    assert (0 <= (- B) * (- T)) by (apply Rmult_le_pos; lra).
    assert (0 <= T ^ 2) by nra.
    assert (0 <= (100 - T) * T ^ 2) by (apply Rmult_le_pos; lra).
    assert (0 <= (- C) * ((100 - T) * T ^ 2)) by (apply Rmult_le_pos; lra).
    rewrite E1. replace (m * (0 - T)) with ((- T) * m) by ring.
    apply Rmult_le_compat_l; unfold m; lra. }
  assert (Hpos : forall T, 0 <= T -> T <= 850 ->
            m * (T - 0) <= (1 + A * T + B * T ^ 2) - 1).
  { intros T HT0 HT.
    replace (1 + A * T + B * T ^ 2 - 1) with (T * (A + B * T)) by ring.
    replace (m * (T - 0)) with (T * m) by ring.
    apply Rmult_le_compat_l; [lra | unfold m; nra]. }
  destruct (Rlt_dec T1 0) as [N1 | P1], (Rlt_dec T2 0) as [N2 | P2].
  - assert (E : (1 + A * T2 + B * T2 ^ 2 + C * (T2 - 100) * T2 ^ 3)
                - (1 + A * T1 + B * T1 ^ 2 + C * (T1 - 100) * T1 ^ 3)
                = (T2 - T1) * (A + (- B) * (- (T1 + T2))
                               + (- C) * ((- (T1 + T2)) * (T1 ^ 2 + T2 ^ 2)
                                          + 100 * (T1 ^ 2 + T1 * T2 + T2 ^ 2))))
      by ring.
    assert (0 <= (- B) * (- (T1 + T2))) by (apply Rmult_le_pos; lra).
    assert (0 <= T1 ^ 2 + T2 ^ 2) by nra.
    assert (0 <= T1 * T2) by nra.
    assert (0 <= (- (T1 + T2)) * (T1 ^ 2 + T2 ^ 2)) by (apply Rmult_le_pos; lra).
    assert (0 <= (- C) * ((- (T1 + T2)) * (T1 ^ 2 + T2 ^ 2)
                          + 100 * (T1 ^ 2 + T1 * T2 + T2 ^ 2)))
      by (apply Rmult_le_pos; nra).
    rewrite E. rewrite (Rmult_comm m).
    apply Rmult_le_compat_l; unfold m; lra.
  - pose proof (Hneg T1 ltac:(lra)). pose proof (Hpos T2 ltac:(lra) Hhi). lra.
  - lra.
  - assert (E : (1 + A * T2 + B * T2 ^ 2) - (1 + A * T1 + B * T1 ^ 2)
                = (T2 - T1) * (A + B * (T1 + T2))) by ring.
    rewrite E, (Rmult_comm m).
    apply Rmult_le_compat_l; [lra | unfold m; nra].
Qed.

Lemma ratio_M_slope (A B C T1 T2 : R) :
  0 < A + 6.7 * B -> B < 0 -> 0 < C ->
  T1 <= T2 ->
  (A + 6.7 * B) * (T2 - T1) <= ratio_M A B C T2 - ratio_M A B C T1.
Proof.
  intros HA HB HC Hle. unfold ratio_M.
  set (m := A + 6.7 * B) in *.
  assert (Hneg : forall T, T <= 0 ->
            m * (0 - T) <= 1 - (1 + A * T + B * T * (T + 6.7) + C * T ^ 3)).
  { intros T HT.
    assert (E1 : 1 - (1 + A * T + B * T * (T + 6.7) + C * T ^ 3)
                 = (- T) * (m + (- B) * (- T) + C * T ^ 2)) by (unfold m; ring).
    assert (0 <= (- B) * (- T)) by (apply Rmult_le_pos; lra).
    assert (0 <= C * T ^ 2) by (apply Rmult_le_pos; nra).
    rewrite E1. replace (m * (0 - T)) with ((- T) * m) by ring.
    apply Rmult_le_compat_l; lra. }
  assert (Hpos : forall T, 0 <= T -> m * (T - 0) <= (1 + A * T) - 1).
  { intros T HT0. assert (m <= A) by (unfold m; lra). nra. }
  destruct (Rlt_dec T1 0) as [N1 | P1], (Rlt_dec T2 0) as [N2 | P2].
  - assert (E : (1 + A * T2 + B * T2 * (T2 + 6.7) + C * T2 ^ 3)
                - (1 + A * T1 + B * T1 * (T1 + 6.7) + C * T1 ^ 3)
                = (T2 - T1) * (m + (- B) * (- (T1 + T2))
                               + C * (T1 ^ 2 + T1 * T2 + T2 ^ 2)))
      by (unfold m; ring).
    assert (0 <= (- B) * (- (T1 + T2))) by (apply Rmult_le_pos; lra).
    assert (0 <= C * (T1 ^ 2 + T1 * T2 + T2 ^ 2)) by (apply Rmult_le_pos; nra).
    rewrite E, (Rmult_comm m). apply Rmult_le_compat_l; lra.
  - pose proof (Hneg T1 ltac:(lra)). pose proof (Hpos T2 ltac:(lra)). lra.
  - lra.
  - assert (m <= A) by (unfold m; lra). nra.
Qed.

Lemma ratio_N_slope (A B C T1 T2 : R) :
  0 < A - 120 * B -> 0 < B -> 0 < C ->
  -60 <= T1 -> T1 <= T2 ->
  (A - 120 * B) * (T2 - T1) <= ratio_N A B C T2 - ratio_N A B C T1.
Proof.
  intros HA HB HC Hlo Hle. unfold ratio_N.
  set (m := A - 120 * B) in *.
  assert (Hq : forall a b, -60 <= a -> a <= b ->
                 m * (b - a) <= (1 + A * b + B * b ^ 2) - (1 + A * a + B * a ^ 2)).
  { intros a b Ha Hab.
    assert (E : (1 + A * b + B * b ^ 2) - (1 + A * a + B * a ^ 2)
                = (b - a) * (m + B * (a + b + 120))) by (unfold m; ring).
    assert (0 <= B * (a + b + 120)) by (apply Rmult_le_pos; lra).
    rewrite E, (Rmult_comm m). apply Rmult_le_compat_l; lra. }
  specialize (Hq T1 T2 Hlo Hle).
  destruct (Rlt_dec T1 100) as [N1 | P1], (Rlt_dec T2 100) as [N2 | P2].
  - exact Hq.
  - assert (0 <= (T2 - 100) * T2 ^ 2) by (apply Rmult_le_pos; nra).
    assert (0 <= C * ((T2 - 100) * T2 ^ 2)) by (apply Rmult_le_pos; lra).
    lra.
  - lra.
  - assert (E : C * (T2 - 100) * T2 ^ 2 - C * (T1 - 100) * T1 ^ 2
                = C * ((T2 - T1) * (T1 * (T1 - 100) + T2 * (T2 - 100) + T1 * T2)))
      by ring.
    assert (0 <= T1 * (T1 - 100)) by (apply Rmult_le_pos; lra).
    assert (0 <= T2 * (T2 - 100)) by (apply Rmult_le_pos; lra).
    assert (0 <= T1 * T2) by (apply Rmult_le_pos; lra).
    assert (0 <= (T2 - T1) * (T1 * (T1 - 100) + T2 * (T2 - 100) + T1 * T2))
      by (apply Rmult_le_pos; lra).
    assert (0 <= C * ((T2 - T1) * (T1 * (T1 - 100) + T2 * (T2 - 100) + T1 * T2)))
      by (apply Rmult_le_pos; lra).
    lra.
Qed.

(** The resistance rises with the temperature at least as fast as at
    the flattest point of the range. *)
Lemma resistance_slopes (T1 T2 R0 : R) :
  0 < R0 -> T1 <= T2 ->
  (T2 <= 850 ->
   rises_by (Get_Resistance_PT T1 R0 PT_385) (Get_Resistance_PT T2 R0 PT_385)
            (0.0029 * R0 * (T2 - T1)) /\
   rises_by (Get_Resistance_PT T1 R0 PT_391) (Get_Resistance_PT T2 R0 PT_391)
            (0.0029 * R0 * (T2 - T1))) /\
  rises_by (Get_Resistance_M T1 R0 M_428) (Get_Resistance_M T2 R0 M_428)
           (0.0042 * R0 * (T2 - T1)) /\
  (-60 <= T1 ->
   rises_by (Get_Resistance_N T1 R0 N_617) (Get_Resistance_N T2 R0 N_617)
            (0.0046 * R0 * (T2 - T1))).
Proof.
  intros HR0 Hle.
  assert (Hcodes : PT_385 <> PT_391) by discriminate.
  assert (Hscale : forall m m' w1 w2 : R,
             m <= m' -> m' * (T2 - T1) <= w2 - w1 ->
             R0 * w1 + m * R0 * (T2 - T1) <= R0 * w2).
  { intros m m' w1 w2 Hm Hw.
    assert (m * (T2 - T1) <= m' * (T2 - T1)) by (apply Rmult_le_compat_r; lra).
    assert (R0 * (m * (T2 - T1)) <= R0 * (w2 - w1))
      by (apply Rmult_le_compat_l; lra).
    lra. }
  split; [| split].
  - intros Hhi.
    destruct (Get_Resistance_PT_ratio T1 R0) as [E1 E1'].
    destruct (Get_Resistance_PT_ratio T2 R0) as [E2 E2'].
    rewrite E1, E2, (E1' Hcodes), (E2' Hcodes). cbn [rises_by].
    split.
    + apply (Hscale _ (PT_A_385 + 1700 * PT_B_385)); [gost; lra |].
      apply ratio_PT_slope; try assumption; gost; lra.
    + apply (Hscale _ (PT_A_391 + 1700 * PT_B_391)); [gost; lra |].
      apply ratio_PT_slope; try assumption; gost; lra.
  - rewrite !Get_Resistance_M_ratio. cbn [rises_by].
    apply (Hscale _ (M_A_428 + 6.7 * M_B_428)); [gost; lra |].
    apply ratio_M_slope; try assumption; gost; lra.
  - intros Hlo. rewrite !Get_Resistance_N_ratio. cbn [rises_by].
    apply (Hscale _ (N_A_617 - 120 * N_B_617)); [gost; lra |].
    apply ratio_N_slope; try assumption; gost; lra.
Qed.

(** C5, as the code has it.  For a nominal resistance from a milliohm to
    a megohm and two temperatures of the family's range at least a
    millionth of a degree apart, the resistance at the higher temperature
    is the greater, by at least 0.0029 R0 per degree for platinum, 0.0042
    R0 for copper and 0.0046 R0 for nickel. *)
Theorem resistance_increasing_apart (T1 T2 R0 : R)
    (HR0 : nominal_R0 R0) (Hapart : T1 + 1e-6 <= T2) :
  (-200 <= T1 -> T2 <= 850 ->
   (rises_by (Get_Resistance_PT T1 R0 PT_385) (Get_Resistance_PT T2 R0 PT_385)
             (0.0029 * R0 * (T2 - T1)) /\
    dlt (Get_Resistance_PT T1 R0 PT_385) (Get_Resistance_PT T2 R0 PT_385)) /\
   (rises_by (Get_Resistance_PT T1 R0 PT_391) (Get_Resistance_PT T2 R0 PT_391)
             (0.0029 * R0 * (T2 - T1)) /\
    dlt (Get_Resistance_PT T1 R0 PT_391) (Get_Resistance_PT T2 R0 PT_391))) /\
  (-180 <= T1 -> T2 <= 200 ->
   rises_by (Get_Resistance_M T1 R0 M_428) (Get_Resistance_M T2 R0 M_428)
            (0.0042 * R0 * (T2 - T1)) /\
   dlt (Get_Resistance_M T1 R0 M_428) (Get_Resistance_M T2 R0 M_428)) /\
  (-60 <= T1 -> T2 <= 180 ->
   rises_by (Get_Resistance_N T1 R0 N_617) (Get_Resistance_N T2 R0 N_617)
            (0.0046 * R0 * (T2 - T1)) /\
   dlt (Get_Resistance_N T1 R0 N_617) (Get_Resistance_N T2 R0 N_617)).
Proof.
  pose proof (nominal_R0_pos R0 HR0) as HR0p.
  destruct (resistance_slopes T1 T2 R0 HR0p ltac:(lra)) as (HPT & HM & HN).
  assert (Hstrict : forall (x y : double) (m : R),
             0 < m -> rises_by x y (m * R0 * (T2 - T1)) -> dlt x y).
  { intros x y m Hm. apply rises_strictly.
    apply Rmult_lt_0_compat; [apply Rmult_lt_0_compat |]; lra. }
  split; [| split]; intros Hlo Hhi.
  - destruct (HPT Hhi) as [H385 H391].
    split; (split; [assumption | eapply Hstrict; [| eassumption]; lra]).
  - split; [assumption | eapply Hstrict; [| eassumption]; lra].
  - specialize (HN Hlo).
    split; [assumption | eapply Hstrict; [| eassumption]; lra].
Qed.

(** ** Bounding a polynomial on an interval *)

Lemma zeval_zadd (p q : zpoly) (x : R) :
  zeval (zadd p q) x = zeval p x + zeval q x.
Proof.
  revert q. induction p as [| a p IH]; intros q.
  - cbn. ring.
  - destruct q as [| b q]; cbn [zadd zeval].
    + ring.
    + rewrite plus_IZR, IH. ring.
Qed.

Lemma zeval_zscale (c : Z) (p : zpoly) (x : R) :
  zeval (zscale c p) x = IZR c * zeval p x.
Proof.
  induction p as [| a p IH]; cbn [zscale map zeval].
  - ring.
  - fold (zscale c p). rewrite mult_IZR, IH. ring.
Qed.

Lemma zeval_zmul (p q : zpoly) (x : R) :
  zeval (zmul p q) x = zeval p x * zeval q x.
Proof.
  induction p as [| a p IH]; cbn [zmul zeval].
  - ring.
  - rewrite zeval_zadd, zeval_zscale. cbn [zeval]. rewrite IH. ring.
Qed.

Lemma zeval_zcomp (p q : zpoly) (x : R) :
  zeval (zcomp p q) x = zeval p (zeval q x).
Proof.
  induction p as [| a p IH]; cbn [zcomp zeval].
  - reflexivity.
  - rewrite zeval_zadd, zeval_zmul, IH. cbn [zeval]. ring.
Qed.

Lemma zabs_bound (p : zpoly) (rho : Z) (s : R) :
  Rabs s <= IZR rho -> Rabs (zeval p s) <= IZR (zabs p rho).
Proof.
  intros Hs.
  assert (Hrho : (0 <= rho)%Z).
  { apply le_IZR. pose proof (Rabs_pos s). lra. }
  induction p as [| c p IH]; cbn [zabs zeval].
  - rewrite Rabs_R0. lra.
  - rewrite plus_IZR, mult_IZR, abs_IZR.
    eapply Rle_trans; [apply Rabs_triang |].
    rewrite Rabs_mult.
    pose proof (Rabs_pos s). pose proof (Rabs_pos (zeval p s)).
    apply Rplus_le_compat_l. apply Rmult_le_compat; assumption.
Qed.

Lemma zcheck_at_sound (p : zpoly) (m rho bound : Z) (x : R) :
  zcheck_at p m rho bound = true ->
  IZR m - IZR rho <= x <= IZR m + IZR rho ->
  Rabs (zeval p x) <= IZR bound.
Proof.
  unfold zcheck_at. intros Hc Hx.
  apply Z.leb_le, IZR_le in Hc.
  eapply Rle_trans; [| exact Hc].
  replace (zeval p x) with (zeval (zcomp p [m; 1%Z]) (x - IZR m)).
  - apply zabs_bound. apply Rabs_le. lra.
  - rewrite zeval_zcomp. cbn [zeval]. f_equal. ring.
Qed.

Lemma zcheck_from_sound (p : zpoly) (rho bound : Z) (n : nat) (lo : Z) (x : R) :
  zcheck_from p lo rho n bound = true ->
  (0 <= rho)%Z ->
  IZR lo <= x <= IZR lo + INR n * (2 * IZR rho) ->
  n <> O ->
  Rabs (zeval p x) <= IZR bound.
Proof.
  intros Hc Hrho. apply IZR_le in Hrho.
  revert lo Hc. induction n as [| n IH]; intros lo Hc Hx Hn.
  - now elim Hn.
  - cbn [zcheck_from] in Hc. apply andb_true_iff in Hc as [Hhere Hrest].
    rewrite S_INR in Hx.
    destruct (Rle_dec x (IZR lo + 2 * IZR rho)) as [Hle | Hgt].
    + apply (zcheck_at_sound p _ rho bound x Hhere).
      rewrite plus_IZR. lra.
    + apply (IH _ Hrest).
      * rewrite plus_IZR, mult_IZR. lra.
      * intros ->. cbn [INR] in Hx. lra.
Qed.


(** [|zeval p x| <= bound] from a check of the [n] intervals of radius
    [rho] that start at [lo]. *)
Ltac interval_check p rho n lo :=
  apply (zcheck_from_sound p rho _ n lo);
  [ vm_compute; reflexivity
  | lia
  | rewrite INR_IZR_INZ; simpl Z.of_nat; lra
  | discriminate ].

(** ** Inverting the quadratic *)

Lemma discriminant_square (A B T c R0 : R) :
  R0 <> 0 ->
  discriminant A B (R0 * (1 + A * T + B * T ^ 2 + c)) R0
  = (A + 2 * B * T) ^ 2 + 4 * B * c.
Proof. intros HR0. unfold discriminant. field. assumption. Qed.

(** The closed-form root undoes [1 + A T + B T^2] on the side of the
    parabola where [A + 2 B T] is not negative. *)
Lemma quadratic_root_exact (A B T R0 : R) :
  R0 <> 0 -> B <> 0 -> 0 <= A + 2 * B * T ->
  quadratic_root A B (R0 * (1 + A * T + B * T ^ 2)) R0 = Fin T.
Proof.
  intros HR0 HB Hside. unfold quadratic_root.
  assert (Hd : discriminant A B (R0 * (1 + A * T + B * T ^ 2)) R0
               = (A + 2 * B * T) * (A + 2 * B * T)).
  { replace (1 + A * T + B * T ^ 2) with (1 + A * T + B * T ^ 2 + 0) by ring.
    rewrite discriminant_square by assumption. ring. }
  rewrite Hd.
  destruct (Req_dec_T R0 0) as [E | _]; [contradiction |].
  destruct (Rlt_dec _ 0) as [L | _]; [nra |].
  destruct (Req_dec_T (2 * B) 0) as [E | _]; [lra |].
  rewrite sqrt_square by assumption. f_equal. field. assumption.
Qed.

(** A small excess [c] of the ratio moves the root up by at most [eps]. *)
Lemma quadratic_root_close (A B T c eps R0 : R) :
  R0 <> 0 -> 0 < B -> 0 <= A + 2 * B * T ->
  0 <= c <= eps * (A + 2 * B * T) -> 0 <= eps ->
  exists t : R,
    quadratic_root A B (R0 * (1 + A * T + B * T ^ 2 + c)) R0 = Fin t /\
    T <= t <= T + eps.
Proof.
  intros HR0 HB Hside Hc Heps. unfold quadratic_root.
  rewrite discriminant_square by assumption.
  set (g := A + 2 * B * T) in *.
  assert (Hlow : g * g <= g ^ 2 + 4 * B * c) by nra.
  assert (Hhigh : g ^ 2 + 4 * B * c <= (g + 2 * B * eps) * (g + 2 * B * eps)) by nra.
  assert (Hpos : 0 <= g ^ 2 + 4 * B * c) by nra.
  destruct (Req_dec_T R0 0) as [E | _]; [contradiction |].
  destruct (Rlt_dec _ 0) as [L | _]; [lra |].
  destruct (Req_dec_T (2 * B) 0) as [E | _]; [lra |].
  eexists. split; [reflexivity |].
  assert (Hs1 : g <= sqrt (g ^ 2 + 4 * B * c)).
  { rewrite <- (sqrt_square g) at 1 by assumption. apply sqrt_le_1_alt. exact Hlow. }
  assert (Hs2 : sqrt (g ^ 2 + 4 * B * c) <= g + 2 * B * eps).
  { rewrite <- (sqrt_square (g + 2 * B * eps)) by nra.
    apply sqrt_le_1_alt. exact Hhigh. }
  set (s := sqrt (g ^ 2 + 4 * B * c)) in *. clearbody s.
  assert (E1 : T = (g - A) / (2 * B)) by (unfold g; field; lra).
  assert (E2 : T + eps = (g + 2 * B * eps - A) / (2 * B)) by (unfold g; field; lra).
  rewrite E2, E1 at 1.
  split; apply Rmult_le_compat_r; try lra;
    apply Rlt_le, Rinv_0_lt_compat; lra.
Qed.

(** ** The error of the inverse power series *)

Lemma scaled_bound (k e b : R) : 0 < k -> Rabs (k * e) <= k * b -> Rabs e <= b.
Proof.
  intros Hk Hb. rewrite Rabs_mult, (Rabs_right k) in Hb by lra.
  apply Rmult_le_reg_l with k; assumption.
Qed.

Lemma zeval_Zminus_T (k : nat) (T : R) :
  zeval (Zminus_T (Z.of_nat k)) T = - (10 ^ k * T).
Proof.
  unfold Zminus_T. cbn [zeval]. rewrite opp_IZR, <- pow_IZR. ring.
Qed.

Lemma IZR_pow10 (k : nat) : IZR (10 ^ Z.of_nat k) = 10 ^ k.
Proof. now rewrite <- pow_IZR. Qed.

(** Platinum 385: the series applied to the ratio of a temperature in
    -200..0 is within the tolerance of that temperature. *)
Lemma PT_385_series_error (T : R) :
  -200 <= T <= 0 ->
  Rabs (power_series PT_D_385 4
          (PT_A_385 * T + PT_B_385 * T ^ 2 + PT_C_385 * (T - 100) * T ^ 3) - T)
  <= round_trip_tolerance.
Proof.
  intros HT. apply scaled_bound with (10 ^ 65); [apply pow_lt; lra |].
  replace (10 ^ 65 * round_trip_tolerance) with (IZR (22 * 10 ^ Z.of_nat 61))
    by (rewrite mult_IZR, IZR_pow10; unfold round_trip_tolerance; lra).
  replace (10 ^ 65 * _) with (zeval ZE_385 T).
  - interval_check ZE_385 5%Z 20%nat (-200)%Z.
  - unfold ZE_385. rewrite zeval_zadd, zeval_zcomp, (zeval_Zminus_T 65).
    assert (HU : zeval ZU_385 T
                 = 10 ^ 15 * (PT_A_385 * T + PT_B_385 * T ^ 2
                              + PT_C_385 * (T - 100) * T ^ 3))
      by (cbn [zeval ZU_385]; gost; lra).
    rewrite HU.
    set (y := PT_A_385 * T + PT_B_385 * T ^ 2 + PT_C_385 * (T - 100) * T ^ 3).
    clearbody y. unfold power_series.
    cbn [sum_1_to zeval ZS_385 at_index nth PT_D_385 Nat.sub]. lra.
Qed.

(** Platinum 391, -200..0. *)
Lemma PT_391_series_error (T : R) :
  -200 <= T <= 0 ->
  Rabs (power_series PT_D_391 4
          (PT_A_391 * T + PT_B_391 * T ^ 2 + PT_C_391 * (T - 100) * T ^ 3) - T)
  <= round_trip_tolerance.
Proof.
  intros HT. apply scaled_bound with (10 ^ 65); [apply pow_lt; lra |].
  replace (10 ^ 65 * round_trip_tolerance) with (IZR (22 * 10 ^ Z.of_nat 61))
    by (rewrite mult_IZR, IZR_pow10; unfold round_trip_tolerance; lra).
  replace (10 ^ 65 * _) with (zeval ZE_391 T).
  - interval_check ZE_391 5%Z 20%nat (-200)%Z.
  - unfold ZE_391. rewrite zeval_zadd, zeval_zcomp, (zeval_Zminus_T 65).
    assert (HU : zeval ZU_391 T
                 = 10 ^ 15 * (PT_A_391 * T + PT_B_391 * T ^ 2
                              + PT_C_391 * (T - 100) * T ^ 3))
      by (cbn [zeval ZU_391]; gost; lra).
    rewrite HU.
    set (y := PT_A_391 * T + PT_B_391 * T ^ 2 + PT_C_391 * (T - 100) * T ^ 3).
    clearbody y. unfold power_series.
    cbn [sum_1_to zeval ZS_391 at_index nth PT_D_391 Nat.sub]. lra.
Qed.

(** Copper, -180..0. *)
Lemma M_428_series_error (T : R) :
  -180 <= T <= 0 ->
  Rabs (power_series M_D_428 4
          (M_A_428 * T + M_B_428 * T * (T + 6.7) + M_C_428 * T ^ 3) - T)
  <= round_trip_tolerance.
Proof.
  intros HT. apply scaled_bound with (10 ^ 65); [apply pow_lt; lra |].
  replace (10 ^ 65 * round_trip_tolerance) with (IZR (22 * 10 ^ Z.of_nat 61))
    by (rewrite mult_IZR, IZR_pow10; unfold round_trip_tolerance; lra).
  replace (10 ^ 65 * _) with (zeval ZE_428 T).
  - interval_check ZE_428 10%Z 9%nat (-180)%Z.
  - unfold ZE_428. rewrite zeval_zadd, zeval_zcomp, (zeval_Zminus_T 65).
    assert (HU : zeval ZU_428 T
                 = 10 ^ 15 * (M_A_428 * T + M_B_428 * T * (T + 6.7)
                              + M_C_428 * T ^ 3))
      by (cbn [zeval ZU_428]; gost; lra).
    rewrite HU.
    set (y := M_A_428 * T + M_B_428 * T * (T + 6.7) + M_C_428 * T ^ 3).
    clearbody y. unfold power_series.
    cbn [sum_1_to zeval ZS_428 at_index nth M_D_428 Nat.sub]. lra.
Qed.

(** Nickel, 100..180, on the ratio with its cubic term. *)
Lemma N_617_series_error (T : R) :
  100 <= T <= 180 ->
  Rabs (100 + power_series N_D_617 3
                (1 + N_A_617 * T + N_B_617 * T ^ 2
                 + N_C_617 * (T - 100) * T ^ 2 - 1.6172) - T)
  <= round_trip_tolerance.
Proof.
  intros HT. apply scaled_bound with (10 ^ 49); [apply pow_lt; lra |].
  replace (10 ^ 49 * round_trip_tolerance) with (IZR (22 * 10 ^ Z.of_nat 45))
    by (rewrite mult_IZR, IZR_pow10; unfold round_trip_tolerance; lra).
  replace (10 ^ 49 * _) with (zeval ZE_617 T).
  - interval_check ZE_617 2%Z 20%nat 100%Z.
  - unfold ZE_617. rewrite zeval_zadd, zeval_zcomp, (zeval_Zminus_T 49).
    assert (HU : zeval ZU_617 T
                 = 10 ^ 15 * (1 + N_A_617 * T + N_B_617 * T ^ 2
                              + N_C_617 * (T - 100) * T ^ 2 - 1.6172))
      by (cbn [zeval ZU_617]; gost; lra).
    rewrite HU.
    set (y := 1 + N_A_617 * T + N_B_617 * T ^ 2
              + N_C_617 * (T - 100) * T ^ 2 - 1.6172).
    clearbody y. unfold power_series.
    cbn [sum_1_to zeval ZS_617 at_index nth N_D_617 Nat.sub]. lra.
Qed.

(** Nickel just below 100 degrees, where the ratio has no cubic term. *)
Lemma N_617_series_error_below (T : R) :
  99.98 <= T <= 100 ->
  Rabs (100 + power_series N_D_617 3
                (1 + N_A_617 * T + N_B_617 * T ^ 2 - 1.6172) - T)
  <= round_trip_tolerance.
Proof.
  intros HT. apply scaled_bound with (10 ^ 49); [apply pow_lt; lra |].
  replace (10 ^ 49 * round_trip_tolerance) with (IZR (22 * 10 ^ Z.of_nat 45))
    by (rewrite mult_IZR, IZR_pow10; unfold round_trip_tolerance; lra).
  replace (10 ^ 49 * _) with (zeval ZE_617_below (100 * T)).
  - interval_check ZE_617_below 1%Z 1%nat 9998%Z.
  - unfold ZE_617_below. rewrite zeval_zadd, zeval_zcomp, (zeval_Zminus_T 47).
    assert (HU : zeval ZU_617_below (100 * T)
                 = 10 ^ 15 * (1 + N_A_617 * T + N_B_617 * T ^ 2 - 1.6172))
      by (cbn [zeval ZU_617_below]; gost; lra).
    rewrite HU.
    set (y := 1 + N_A_617 * T + N_B_617 * T ^ 2 - 1.6172).
    clearbody y. unfold power_series.
    cbn [sum_1_to zeval ZS_617 at_index nth N_D_617 Nat.sub]. lra.
Qed.

(** ** Round trips *)

Lemma near_exact (T eps : R) : 0 <= eps -> near (Fin T) T eps.
Proof.
  intros Heps. exists T. split; [reflexivity |].
  rewrite Rminus_diag, Rabs_R0. assumption.
Qed.

Lemma tolerance_pos : 0 <= round_trip_tolerance.
Proof. unfold round_trip_tolerance. lra. Qed.

Lemma ratio_cancel (R0 w : R) : R0 <> 0 -> R0 * w / R0 = w.
Proof. intros HR0. field. assumption. Qed.

(** Below zero the platinum and copper ratios are below one. *)
Lemma ratio_PT_below_one (A B C T : R) :
  0 < A -> B < 0 -> C < 0 -> T < 0 ->
  1 + A * T + B * T ^ 2 + C * (T - 100) * T ^ 3 < 1.
Proof.
  intros HA HB HC HT.
  assert (E1 : 1 + A * T + B * T ^ 2 + C * (T - 100) * T ^ 3
               = 1 - (- T) * (A + (- B) * (- T) + (- C) * ((100 - T) * T ^ 2)))
    by ring.
  assert (0 <= (- B) * (- T)) by (apply Rmult_le_pos; lra).
  assert (0 <= T ^ 2) by nra.
  assert (0 <= (100 - T) * T ^ 2) by (apply Rmult_le_pos; lra).
  assert (0 <= (- C) * ((100 - T) * T ^ 2)) by (apply Rmult_le_pos; lra).
  assert (0 < (- T) * (A + (- B) * (- T) + (- C) * ((100 - T) * T ^ 2)))
    by (apply Rmult_lt_0_compat; lra).
  lra.
Qed.

Lemma ratio_M_below_one (A B C T : R) :
  0 < A + 6.7 * B -> B < 0 -> 0 < C -> T < 0 ->
  1 + A * T + B * T * (T + 6.7) + C * T ^ 3 < 1.
Proof.
  intros HA HB HC HT.
  assert (E1 : 1 + A * T + B * T * (T + 6.7) + C * T ^ 3
               = 1 - (- T) * ((A + 6.7 * B) + (- B) * (- T) + C * T ^ 2)) by ring.
  assert (0 <= (- B) * (- T)) by (apply Rmult_le_pos; lra).
  assert (0 <= C * T ^ 2) by (apply Rmult_le_pos; nra).
  assert (0 < (- T) * ((A + 6.7 * B) + (- B) * (- T) + C * T ^ 2))
    by (apply Rmult_lt_0_compat; lra).
  lra.
Qed.

Lemma PT_round_trip (T R0 : R) :
  0 < R0 -> -200 <= T <= 850 ->
  near (round_trip Get_Resistance_PT Get_Temperature_PT T R0 PT_385)
       T round_trip_tolerance /\
  near (round_trip Get_Resistance_PT Get_Temperature_PT T R0 PT_391)
       T round_trip_tolerance.
Proof.
  intros HR0 HT.
  assert (HR0' : R0 <> 0) by lra.
  assert (Hcodes : PT_385 <> PT_391) by discriminate.
  unfold round_trip.
  destruct (Get_Resistance_PT_ratio T R0) as [E1 E2].
  rewrite E1, (E2 Hcodes). cbn [and_then]. unfold ratio_PT.
  destruct (Rlt_dec T 0) as [Hneg | Hpos].
  - (* the power series *)
    pose proof (ratio_PT_below_one PT_A_385 PT_B_385 PT_C_385 T) as H385.
    pose proof (ratio_PT_below_one PT_A_391 PT_B_391 PT_C_391 T) as H391.
    split.
    + set (w := 1 + PT_A_385 * T + PT_B_385 * T ^ 2 + PT_C_385 * (T - 100) * T ^ 3) in *.
      assert (Hw : w < 1) by (apply H385; try assumption; gost; lra).
      destruct (Get_Temperature_PT_below (R0 * w) R0 HR0') as [E _]; [nra |].
      rewrite E, ratio_cancel by assumption.
      eexists. split; [reflexivity |].
      replace (w - 1) with (PT_A_385 * T + PT_B_385 * T ^ 2 + PT_C_385 * (T - 100) * T ^ 3)
        by (unfold w; ring).
      apply PT_385_series_error. lra.
    + set (w := 1 + PT_A_391 * T + PT_B_391 * T ^ 2 + PT_C_391 * (T - 100) * T ^ 3) in *.
      assert (Hw : w < 1) by (apply H391; try assumption; gost; lra).
      destruct (Get_Temperature_PT_below (R0 * w) R0 HR0') as [_ E]; [nra |].
      rewrite (E Hcodes), ratio_cancel by assumption.
      eexists. split; [reflexivity |].
      replace (w - 1) with (PT_A_391 * T + PT_B_391 * T ^ 2 + PT_C_391 * (T - 100) * T ^ 3)
        by (unfold w; ring).
      apply PT_391_series_error. lra.
  - (* the closed form *)
    assert (HT0 : 0 <= T) by lra.
    assert (H385 : 0 <= PT_A_385 + 2 * PT_B_385 * T) by (gost; lra).
    assert (H391 : 0 <= PT_A_391 + 2 * PT_B_391 * T) by (gost; lra).
    split.
    + assert (Hw : 1 <= 1 + PT_A_385 * T + PT_B_385 * T ^ 2).
      { assert (0 <= T * (PT_A_385 + PT_B_385 * T))
          by (apply Rmult_le_pos; [assumption | gost; lra]). lra. }
      destruct (Get_Temperature_PT_above
                  (R0 * (1 + PT_A_385 * T + PT_B_385 * T ^ 2)) R0) as [E _]; [nra |].
      rewrite E, quadratic_root_exact; try assumption; [| gost; lra].
      apply near_exact, tolerance_pos.
    + assert (Hw : 1 <= 1 + PT_A_391 * T + PT_B_391 * T ^ 2).
      { assert (0 <= T * (PT_A_391 + PT_B_391 * T))
          by (apply Rmult_le_pos; [assumption | gost; lra]). lra. }
      destruct (Get_Temperature_PT_above
                  (R0 * (1 + PT_A_391 * T + PT_B_391 * T ^ 2)) R0) as [_ E]; [nra |].
      rewrite (E Hcodes), quadratic_root_exact; try assumption; [| gost; lra].
      apply near_exact, tolerance_pos.
Qed.

Lemma M_round_trip (T R0 : R) :
  0 < R0 -> -180 <= T <= 200 ->
  near (round_trip Get_Resistance_M Get_Temperature_M T R0 M_428)
       T round_trip_tolerance.
Proof.
  intros HR0 HT.
  assert (HR0' : R0 <> 0) by lra.
  unfold round_trip. rewrite Get_Resistance_M_ratio. cbn [and_then]. unfold ratio_M.
  destruct (Rlt_dec T 0) as [Hneg | Hpos].
  - pose proof (ratio_M_below_one M_A_428 M_B_428 M_C_428 T) as Hone.
    set (w := 1 + M_A_428 * T + M_B_428 * T * (T + 6.7) + M_C_428 * T ^ 3) in *.
    assert (Hw : w < 1) by (apply Hone; try assumption; gost; lra).
    rewrite Get_Temperature_M_below, ratio_cancel by (try assumption; nra).
    eexists. split; [reflexivity |].
    replace (w - 1) with (M_A_428 * T + M_B_428 * T * (T + 6.7) + M_C_428 * T ^ 3)
      by (unfold w; ring).
    apply M_428_series_error. lra.
  - assert (HA : 0 < M_A_428) by (gost; lra).
    assert (Hw : 1 <= 1 + M_A_428 * T) by nra.
    rewrite Get_Temperature_M_above, ratio_cancel by (try assumption; nra).
    replace ((1 + M_A_428 * T - 1) / M_A_428) with T by (field; lra).
    apply near_exact, tolerance_pos.
Qed.

(** The nickel quadratic [1 + A T + B T^2] of the standard: below 1.61718
    under 99.98 degrees, at least 1.617186 from 100 degrees on. *)
Lemma N_quadratic_before_knee (T : R) :
  -60 <= T -> T < 99.98 -> 1 + N_A_617 * T + N_B_617 * T ^ 2 < 1.61718.
Proof.
  intros Hlo Hhi.
  assert (E : 1 + N_A_617 * T + N_B_617 * T ^ 2
              = (1 + N_A_617 * 99.98 + N_B_617 * 99.98 ^ 2)
                - (99.98 - T) * (N_A_617 + N_B_617 * (99.98 + T))) by ring.
  assert (0 < (99.98 - T) * (N_A_617 + N_B_617 * (99.98 + T)))
    by (apply Rmult_lt_0_compat; [lra | gost; lra]).
  rewrite E. revert H. gost. lra.
Qed.

Lemma N_quadratic_after_knee (T : R) :
  100 <= T -> 1.617186 <= 1 + N_A_617 * T + N_B_617 * T ^ 2.
Proof.
  intros Hlo.
  assert (E : 1 + N_A_617 * T + N_B_617 * T ^ 2
              = (1 + N_A_617 * 100 + N_B_617 * 100 ^ 2)
                + (T - 100) * (N_A_617 + N_B_617 * (100 + T))) by ring.
  assert (0 <= (T - 100) * (N_A_617 + N_B_617 * (100 + T)))
    by (apply Rmult_le_pos; [lra | gost; lra]).
  rewrite E. revert H. gost. lra.
Qed.

(** The knee as a ratio: 1.6172 for [R0] 100 and 1000, 1.61718 for 500. *)
Lemma Temp_start_ratio (R0 : R) :
  R0 = 100 \/ R0 = 500 \/ R0 = 1000 ->
  exists k : R, Temp_start R0 = R0 * k /\ 1.61718 <= k <= 1.6172.
Proof.
  destruct Temp_start_values as (E1 & E2 & E3).
  intros [-> | [-> | ->]].
  - exists 1.6172. rewrite E1. lra.
  - exists 1.61718. rewrite E2. lra.
  - exists 1.6172. rewrite E3. lra.
Qed.

Lemma N_round_trip (T R0 : R) :
  R0 = 100 \/ R0 = 500 \/ R0 = 1000 -> -60 <= T <= 180 ->
  near (round_trip Get_Resistance_N Get_Temperature_N T R0 N_617)
       T round_trip_tolerance.
Proof.
  intros HR0 HT.
  destruct (Temp_start_ratio R0 HR0) as (k & Hk & Hkr).
  assert (HR0p : 0 < R0) by lra.
  assert (HR0' : R0 <> 0) by lra.
  assert (HB : 0 < N_B_617) by (gost; lra).
  assert (Hside : 0 <= N_A_617 + 2 * N_B_617 * T) by (gost; lra).
  unfold round_trip. rewrite Get_Resistance_N_ratio. cbn [and_then]. unfold ratio_N.
  destruct (Rlt_dec T 100) as [Hlow | Hhigh].
  - set (w := 1 + N_A_617 * T + N_B_617 * T ^ 2).
    destruct (Rlt_dec (R0 * w) (Temp_start R0)) as [Hb | Ha].
    + (* below the knee: the closed form *)
      rewrite Get_Temperature_N_below by assumption.
      unfold w. rewrite quadratic_root_exact by (try assumption; lra).
      apply near_exact, tolerance_pos.
    + (* the knee of 500 ohms is reached just before 100 degrees *)
      rewrite Get_Temperature_N_above, ratio_cancel by assumption.
      eexists. split; [reflexivity |].
      apply N_617_series_error_below.
      split; [| lra].
      destruct (Rle_dec 99.98 T) as [Hge | Hlt]; [assumption |].
      exfalso. apply Ha. rewrite Hk.
      apply Rmult_lt_compat_l; [assumption |].
      assert (w < 1.61718) by (apply N_quadratic_before_knee; lra). lra.
  - assert (HT100 : 100 <= T) by lra.
    pose proof (N_quadratic_after_knee T HT100) as Hq.
    set (c := N_C_617 * (T - 100) * T ^ 2).
    assert (Hc : 0 <= c).
    { unfold c. rewrite Rmult_assoc.
      apply Rmult_le_pos; [gost; lra |]. apply Rmult_le_pos; nra. }
    set (w := 1 + N_A_617 * T + N_B_617 * T ^ 2 + c).
    destruct (Rlt_dec (R0 * w) (Temp_start R0)) as [Hb | Ha].
    + (* still below the knee: the closed form on a ratio with a cubic term *)
      rewrite Get_Temperature_N_below by assumption.
      assert (Hw : w < k).
      { apply Rmult_lt_reg_l with R0; [assumption |]. now rewrite <- Hk. }
      destruct (quadratic_root_close N_A_617 N_B_617 T c round_trip_tolerance R0)
        as (t & Et & Ht); try assumption.
      * split; [assumption |].
        assert (c <= 1.4e-5) by (unfold w in Hw; lra).
        assert (6.8e-3 <= N_A_617 + 2 * N_B_617 * T) by (gost; lra).
        unfold round_trip_tolerance. nra.
      * apply tolerance_pos.
      * unfold w. rewrite Et. exists t. split; [reflexivity |].
        apply Rabs_le. pose proof tolerance_pos. lra.
    + rewrite Get_Temperature_N_above, ratio_cancel by assumption.
      eexists. split; [reflexivity |].
      unfold w, c. apply N_617_series_error. lra.
Qed.

(** C4, as the code has it.  Resistance to temperature after temperature
    to resistance gives the temperature back within 2.2e-3 degrees: for
    platinum and copper with a nominal resistance from a milliohm to a
    megohm, for nickel with [R0] one of 100, 500, 1000, at every
    temperature of the family's range, the branch boundaries included. *)
Theorem round_trip_within_tolerance (T R0 : R) :
  (nominal_R0 R0 -> -200 <= T <= 850 ->
   near (round_trip Get_Resistance_PT Get_Temperature_PT T R0 PT_385)
        T round_trip_tolerance /\
   near (round_trip Get_Resistance_PT Get_Temperature_PT T R0 PT_391)
        T round_trip_tolerance) /\
  (nominal_R0 R0 -> -180 <= T <= 200 ->
   near (round_trip Get_Resistance_M Get_Temperature_M T R0 M_428)
        T round_trip_tolerance) /\
  (R0 = 100 \/ R0 = 500 \/ R0 = 1000 -> -60 <= T <= 180 ->
   near (round_trip Get_Resistance_N Get_Temperature_N T R0 N_617)
        T round_trip_tolerance) /\
  round_trip_tolerance = 2.2e-3.
Proof.
  split; [| split; [| split]].
  - intros HR0 HT. apply PT_round_trip; [now apply nominal_R0_pos | assumption].
  - intros HR0 HT. apply M_round_trip; [now apply nominal_R0_pos | assumption].
  - intros HR0 HT. now apply N_round_trip.
  - reflexivity.
Qed.

(** ** Where the specification and the code part *)

Lemma Rabs_le_between (a b : R) : Rabs a <= b -> - b <= a <= b.
Proof. unfold Rabs. destruct (Rcase_abs a); lra. Qed.

(** C4 as stated fails.  Platinum 385, [R0 = 100], -180 degrees, far from
    the branch boundary at 0 degrees: the round trip is off by more than
    1e-3.  Nickel, [R0 = 200], 0 degrees: the knee is 0, the power series
    is used far from 100 degrees and the round trip is off by more than
    0.29. *)
Lemma round_trip_exceeds_1e3 :
  ~ near (round_trip Get_Resistance_PT Get_Temperature_PT (-180) 100 PT_385)
         (-180) 1e-3 /\
  ~ near (round_trip Get_Resistance_N Get_Temperature_N 0 200 N_617) 0 0.29.
Proof.
  split.
  - unfold round_trip.
    destruct (Get_Resistance_PT_ratio (-180) 100) as [E _]. rewrite E.
    cbn [and_then]. unfold ratio_PT.
    destruct (Rlt_dec (-180) 0) as [_ | N]; [| lra].
    destruct (Get_Temperature_PT_below
                (100 * (1 + PT_A_385 * -180 + PT_B_385 * (-180) ^ 2
                        + PT_C_385 * (-180 - 100) * (-180) ^ 3)) 100)
      as [E' _]; [lra | gost; lra |].
    rewrite E'. intros (r & Er & Hr). apply Fin_inj in Er. subst r.
    apply Rabs_le_between in Hr. revert Hr.
    unfold power_series. cbn [sum_1_to at_index nth PT_D_385 Nat.sub]. gost. lra.
  - unfold round_trip. rewrite Get_Resistance_N_ratio.
    cbn [and_then]. unfold ratio_N.
    destruct (Rlt_dec 0 100) as [_ | N]; [| lra].
    assert (HT : Temp_start 200 = 0).
    { unfold Temp_start.
      destruct (Req_dec_T 200 100); [lra |].
      destruct (Req_dec_T 200 500); [lra |].
      destruct (Req_dec_T 200 1000); [lra | reflexivity]. }
    rewrite Get_Temperature_N_above by (rewrite ?HT; gost; lra).
    intros (r & Er & Hr). apply Fin_inj in Er. subst r.
    apply Rabs_le_between in Hr. revert Hr.
    unfold power_series. cbn [sum_1_to at_index nth N_D_617 Nat.sub]. gost. lra.
Qed.

Section Tie.

Import PrimFloat.

Local Open Scope float_scope.

(** C5 as stated fails.  In binary64 the copper resistance for
    [R0 = 100] is the same at 20 degrees and at the next double above 20,
    both in the range of the family: the temperature rises and the
    resistance does not. *)
Lemma resistance_tie :
  (20 <? next_up 20) = true /\
  (-180 <=? 20) = true /\ (next_up 20 <=? 200) = true /\
  (Binary64.Get_Resistance_M Binary64.pow_by_products 20 100 M_428
   <? Binary64.Get_Resistance_M Binary64.pow_by_products (next_up 20) 100 M_428)
  = false /\
  (Binary64.Get_Resistance_M Binary64.pow_by_products 20 100 M_428
   =? Binary64.Get_Resistance_M Binary64.pow_by_products (next_up 20) 100 M_428)
  = true.
Proof. repeat split; reflexivity. Qed.

End Tie.

(** C7 as stated fails.  With [R0 = 0] nothing is signalled: the division
    is performed and the result is not finite. *)
Lemma zero_R0_gives_NonFinite :
  Get_Temperature_PT 100 0 PT_385 = NonFinite /\
  Get_Temperature_M 100 0 M_428 = NonFinite.
Proof.
  unfold Get_Temperature_PT, Get_Temperature_M.
  rewrite !Z.eqb_refl, !ddiv_zero.
  destruct (Rlt_dec 100 0); split; reflexivity.
Qed.


(** ** The theorems at concrete inputs *)

Lemma Get_Temperature_PT_formula_witness :
  0 < 100 /\ PT_385 <> PT_391 /\
  Get_Temperature_PT 80 100 PT_385
    = Fin (power_series PT_D_385 4 (80 / 100 - 1)) /\
  Get_Temperature_PT 120 100 PT_391
    = quadratic_root PT_A_391 PT_B_391 120 100.
Proof.
  assert (H0 : 0 < 100) by lra.
  assert (Hc : PT_385 <> PT_391) by discriminate.
  destruct (Get_Temperature_PT_formula 80 100 H0 Hc) as [Hbelow _].
  destruct (Get_Temperature_PT_formula 120 100 H0 Hc) as [_ Habove].
  repeat split; try assumption.
  - apply Hbelow. lra.
  - apply Habove. lra.
Defined.

Lemma Get_Temperature_N_formula_witness :
  (100 = 100 \/ 100 = 500 \/ 100 = 1000) /\
  Temp_start 100 = 161.72 /\
  Get_Temperature_N 120 100 N_617 = quadratic_root N_A_617 N_B_617 120 100 /\
  Get_Temperature_N 170 100 N_617
    = Fin (100 + power_series N_D_617 3 (170 / 100 - 1.6172)).
Proof.
  assert (H0 : 100 = 100 \/ 100 = 500 \/ 100 = 1000) by (left; reflexivity).
  destruct (Get_Temperature_N_formula 120 100 H0) as ((E & _) & Hbelow & _).
  destruct (Get_Temperature_N_formula 170 100 H0) as (_ & _ & Habove).
  repeat split; try assumption.
  - apply Hbelow. rewrite E. lra.
  - apply Habove. rewrite E. lra.
Defined.

Lemma round_trip_within_tolerance_witness :
  nominal_R0 100 /\
  -200 <= -50 <= 850 /\ -180 <= -50 <= 200 /\ -60 <= 120 <= 180 /\
  near (round_trip Get_Resistance_PT Get_Temperature_PT (-50) 100 PT_385)
       (-50) round_trip_tolerance /\
  near (round_trip Get_Resistance_M Get_Temperature_M (-50) 100 M_428)
       (-50) round_trip_tolerance /\
  near (round_trip Get_Resistance_N Get_Temperature_N 120 100 N_617)
       120 round_trip_tolerance.
Proof.
  assert (H0 : nominal_R0 100) by (unfold nominal_R0; split; lra).
  assert (H1 : -200 <= -50 <= 850) by lra.
  assert (H2 : -180 <= -50 <= 200) by lra.
  assert (H3 : -60 <= 120 <= 180) by lra.
  destruct (round_trip_within_tolerance (-50) 100) as (HPT & HM & _ & _).
  destruct (round_trip_within_tolerance 120 100) as (_ & _ & HN & _).
  repeat split; try lra.
  - apply (HPT H0 H1).
  - apply (HM H0 H2).
  - apply HN; [left; reflexivity | exact H3].
Defined.

Lemma resistance_increasing_apart_witness :
  nominal_R0 100 /\ -10 + 1e-6 <= 20 /\
  dlt (Get_Resistance_PT (-10) 100 PT_385) (Get_Resistance_PT 20 100 PT_385) /\
  rises_by (Get_Resistance_M (-10) 100 M_428) (Get_Resistance_M 20 100 M_428)
           (0.0042 * 100 * (20 - -10)) /\
  dlt (Get_Resistance_N (-10) 100 N_617) (Get_Resistance_N 20 100 N_617).
Proof.
  assert (H0 : nominal_R0 100) by (unfold nominal_R0; split; lra).
  assert (H1 : -10 + 1e-6 <= 20) by lra.
  destruct (resistance_increasing_apart (-10) 20 100 H0 H1) as (HPT & HM & HN).
  destruct HPT as ((_ & H385) & _); [lra | lra |].
  destruct HM as (HMr & _); [lra | lra |].
  destruct HN as (_ & HNl); [lra | lra |].
  repeat split; try assumption; lra.
Defined.

Lemma unrecognised_selector_returns_zero_witness :
  (255 <> PT_385 /\ 255 <> PT_391 /\ 255 <> M_428 /\ 255 <> N_617)%Z /\
  Get_Temperature_PT 120 100 255 = Fin 0 /\
  Get_Resistance_PT 120 100 255 = Fin 0 /\
  Get_Temperature_M 120 100 255 = Fin 0 /\
  Get_Resistance_M 120 100 255 = Fin 0 /\
  Get_Temperature_N 120 100 255 = Fin 0 /\
  Get_Resistance_N 120 100 255 = Fin 0.
Proof.
  assert (H1 : 255%Z <> PT_385) by discriminate.
  assert (H2 : 255%Z <> PT_391) by discriminate.
  assert (H3 : 255%Z <> M_428) by discriminate.
  assert (H4 : 255%Z <> N_617) by discriminate.
  destruct (unrecognised_selector_returns_zero 120 100 255) as (HPT & HM & HN).
  destruct (HPT H1 H2) as [? ?], (HM H3) as [? ?], (HN H4) as [? ?].
  repeat split; assumption.
Defined.

Lemma MAX31865_Get_Resistance_value_witness :
  is_byte 0x40 /\ is_byte 0x00 /\
  fst (MAX31865_Get_Resistance [0x40; 0x00; 0; 0; 0; 0; 0]%Z
         {| MAX31865_Sensor_Error := false; spi_bus := [] |})
    = Fin (IZR (adc_code 0x40 0x00) * MAX31865_R_REF / 32768).
Proof.
  assert (H0 : is_byte 0x40) by (unfold is_byte; lia).
  assert (H1 : is_byte 0x00) by (unfold is_byte; lia).
  destruct (MAX31865_Get_Resistance_value 0x40 0x00 [0; 0; 0; 0; 0]%Z
              {| MAX31865_Sensor_Error := false; spi_bus := [] |} H0 H1)
    as (E & _ & _).
  split; [exact H0 | split; [exact H1 | exact E]].
Defined.

Lemma Get_Temperature_N_other_R0_witness :
  200 <> 100 /\ 200 <> 500 /\ 200 <> 1000 /\ 0 <= 250 /\
  Temp_start 200 = 0 /\
  Get_Temperature_N 250 200 N_617
    = Fin (100 + power_series N_D_617 3 (250 / 200 - 1.6172)).
Proof.
  assert (H1 : 200 <> 100) by lra.
  assert (H2 : 200 <> 500) by lra.
  assert (H3 : 200 <> 1000) by lra.
  assert (H4 : 0 <= 250) by lra.
  destruct (Get_Temperature_N_other_R0 250 200 H1 H2 H3 H4) as (E & _ & _ & HF).
  repeat split; try assumption.
  apply HF. lra.
Defined.

(** * Further properties of the calculator *)

(** ** What the closed-form root is *)

(** A finite closed-form root [t] is the solution of
    [1 + A t + B t^2 = Resistance / R0] with [0 <= A + 2 B t]. *)
Lemma quadratic_root_solution (A B Resistance R0 t : R) :
  quadratic_root A B Resistance R0 = Fin t ->
  R0 <> 0 /\ B <> 0 /\ 0 <= A + 2 * B * t /\
  Resistance = R0 * (1 + A * t + B * t ^ 2).
Proof.
  unfold quadratic_root.
  destruct (Req_dec_T R0 0) as [E | HR0]; [discriminate |].
  destruct (Rlt_dec (discriminant A B Resistance R0) 0) as [L | Hd]; [discriminate |].
  destruct (Req_dec_T (2 * B) 0) as [E | HB]; [discriminate |].
  intros Ht. apply Fin_inj in Ht.
  assert (HB' : B <> 0) by lra.
  assert (Hd' : 0 <= discriminant A B Resistance R0) by lra.
  pose proof (sqrt_pos (discriminant A B Resistance R0)) as Hs.
  pose proof (sqrt_sqrt _ Hd') as Hss.
  set (s := sqrt (discriminant A B Resistance R0)) in *. clearbody s.
  assert (Es : s = A + 2 * B * t) by (subst t; field; assumption).
  repeat split; try assumption; [lra |].
  unfold discriminant in Hss. rewrite Es in Hss.
  assert (E4 : 4 * B * (Resistance / R0) = 4 * B * (1 + A * t + B * t ^ 2)) by lra.
  assert (Er : Resistance / R0 = 1 + A * t + B * t ^ 2).
  { apply Rmult_eq_reg_l with (4 * B); [exact E4 | lra]. }
  rewrite <- Er. field. assumption.
Qed.

(** The closed-form root exists when the discriminant is not negative. *)
Lemma quadratic_root_exists (A B Resistance R0 : R) :
  R0 <> 0 -> B <> 0 -> 0 <= discriminant A B Resistance R0 ->
  exists t : R, quadratic_root A B Resistance R0 = Fin t.
Proof.
  intros HR0 HB Hd.
  apply (proj2 (quadratic_root_finite A B Resistance R0 HR0 HB)). exact Hd.
Qed.

(** Two solutions on the side [0 <= A + 2 B t] are ordered as their
    ratios are, for [0 < B] and for [B < 0] (where the order of the
    discriminants is reversed but that of the roots is not). *)
Lemma solutions_ordered (A B t1 t2 : R) :
  B <> 0 ->
  0 <= A + 2 * B * t1 -> 0 <= A + 2 * B * t2 ->
  1 + A * t1 + B * t1 ^ 2 < 1 + A * t2 + B * t2 ^ 2 ->
  t1 < t2.
Proof.
  intros HB H1 H2 Hlt.
  assert (E : (1 + A * t2 + B * t2 ^ 2) - (1 + A * t1 + B * t1 ^ 2)
              = (t2 - t1) * (A + B * (t1 + t2))) by ring.
  assert (Hs : 0 <= A + B * (t1 + t2)) by lra.
  destruct (Rlt_dec t1 t2) as [L | N]; [assumption | exfalso].
  assert ((t2 - t1) * (A + B * (t1 + t2)) <= 0).
  { replace ((t2 - t1) * (A + B * (t1 + t2)))
      with (- ((t1 - t2) * (A + B * (t1 + t2)))) by ring.
    assert (0 <= (t1 - t2) * (A + B * (t1 + t2))) by (apply Rmult_le_pos; lra).
    lra. }
  lra.
Qed.

Lemma solutions_ordered_le (A B t1 t2 : R) :
  B <> 0 ->
  0 <= A + 2 * B * t1 -> 0 <= A + 2 * B * t2 ->
  1 + A * t1 + B * t1 ^ 2 <= 1 + A * t2 + B * t2 ^ 2 ->
  t1 <= t2.
Proof.
  intros HB H1 H2 Hle.
  destruct (Rle_dec t1 t2) as [L | N]; [assumption | exfalso].
  assert (Hlt : t2 < t1) by lra.
  assert (E : (1 + A * t1 + B * t1 ^ 2) - (1 + A * t2 + B * t2 ^ 2)
              = (t1 - t2) * (A + B * (t1 + t2))) by ring.
  assert (Hs : 0 <= A + B * (t1 + t2)) by lra.
  assert (Hz : (t1 - t2) * (A + B * (t1 + t2)) = 0).
  { assert (0 <= (t1 - t2) * (A + B * (t1 + t2))) by (apply Rmult_le_pos; lra). lra. }
  apply Rmult_integral in Hz. destruct Hz as [Hz | Hz]; [lra |].
  (* then A + 2 B t1 = A + 2 B t2 = 0, so B (t1 - t2) = 0 *)
  assert (Hb : B * (t1 - t2) = 0) by lra.
  apply Rmult_integral in Hb. destruct Hb; lra.
Qed.

(** ** The power series on a ratio between 0 and 1 *)

Lemma Rmult_abs_bound (d u b : R) : Rabs u <= b -> - (Rabs d * b) <= d * u.
Proof.
  intros Hu.
  assert (H1 : Rabs (d * u) <= Rabs d * b).
  { rewrite Rabs_mult. apply Rmult_le_compat_l; [apply Rabs_pos | assumption]. }
  pose proof (Rabs_le_between _ _ H1). lra.
Qed.

Lemma power_series_4 (d1 d2 d3 d4 x : R) :
  power_series [d1; d2; d3; d4] 4 x = d1 * x + d2 * x ^ 2 + d3 * x ^ 3 + d4 * x ^ 4.
Proof.
  unfold power_series. cbn [sum_1_to at_index nth Nat.sub]. ring.
Qed.

(** A 4-term series whose first coefficient dominates the others is
    strictly increasing for [-1 <= x <= 0]. *)
Lemma power_series_increasing (d1 d2 d3 d4 x1 x2 : R) :
  2 * Rabs d2 + 3 * Rabs d3 + 4 * Rabs d4 < d1 ->
  -1 <= x1 -> x1 < x2 -> x2 <= 0 ->
  power_series [d1; d2; d3; d4] 4 x1 < power_series [d1; d2; d3; d4] 4 x2.
Proof.
  intros Hd Hlo Hlt Hhi. rewrite !power_series_4.
  set (u := x1 + x2). set (q := x1 ^ 2 + x1 * x2 + x2 ^ 2).
  set (c := (x1 + x2) * (x1 ^ 2 + x2 ^ 2)).
  assert (E : (d1 * x2 + d2 * x2 ^ 2 + d3 * x2 ^ 3 + d4 * x2 ^ 4)
              - (d1 * x1 + d2 * x1 ^ 2 + d3 * x1 ^ 3 + d4 * x1 ^ 4)
              = (x2 - x1) * (d1 + d2 * u + d3 * q + d4 * c))
    by (unfold u, q, c; ring).
  assert (Hu : Rabs u <= 2) by (apply Rabs_le; unfold u; lra).
  assert (Hq : Rabs q <= 3) by (apply Rabs_le; unfold q; nra).
  assert (Hsq : 0 <= x1 ^ 2 + x2 ^ 2 <= 2) by nra.
  assert (Hc : Rabs c <= 4).
  { apply Rabs_le. unfold c. split.
    - assert (0 <= (- (x1 + x2)) * (x1 ^ 2 + x2 ^ 2) <= 2 * 2).
      { split; [apply Rmult_le_pos; lra |]. apply Rmult_le_compat; lra. }
      lra.
    - assert (0 <= (- (x1 + x2)) * (x1 ^ 2 + x2 ^ 2)) by (apply Rmult_le_pos; lra).
      lra. }
  pose proof (Rmult_abs_bound d2 u 2 Hu).
  pose proof (Rmult_abs_bound d3 q 3 Hq).
  pose proof (Rmult_abs_bound d4 c 4 Hc).
  assert (0 < (x2 - x1) * (d1 + d2 * u + d3 * q + d4 * c))
    by (apply Rmult_lt_0_compat; lra).
  lra.
Qed.

Lemma power_series_at_0 (D : list R) (n : nat) : power_series D n 0 = 0.
Proof.
  unfold power_series. induction n as [| n IH]; cbn [sum_1_to]; [reflexivity |].
  rewrite IH. cbn [pow]. ring.
Qed.

Lemma Rabs_decimal_bounds :
  2 * Rabs 9.14550 + 3 * Rabs (-2.92363) + 4 * Rabs 1.79090 < 255.819 /\
  2 * Rabs 8.80035 + 3 * Rabs (-2.91506) + 4 * Rabs 1.67611 < 251.903 /\
  2 * Rabs 7.9370 + 3 * Rabs (-2.0062) + 4 * Rabs (-0.3953) < 233.87.
Proof.
  repeat split.
  - rewrite (Rabs_right 9.14550), (Rabs_left (-2.92363)), (Rabs_right 1.79090); lra.
  - rewrite (Rabs_right 8.80035), (Rabs_left (-2.91506)), (Rabs_right 1.67611); lra.
  - rewrite (Rabs_right 7.9370), (Rabs_left (-2.0062)), (Rabs_left (-0.3953)); lra.
Qed.

(** The three 4-term tables of the source are of that kind. *)
Lemma table_series_increasing (D : list R) (x1 x2 : R) :
  D = PT_D_385 \/ D = PT_D_391 \/ D = M_D_428 ->
  -1 <= x1 -> x1 < x2 -> x2 <= 0 ->
  power_series D 4 x1 < power_series D 4 x2.
Proof.
  destruct Rabs_decimal_bounds as (H1 & H2 & H3).
  intros [-> | [-> | ->]]; apply power_series_increasing; assumption.
Qed.

Lemma ratio_in_unit (Resistance R0 : R) :
  0 < R0 -> 0 <= Resistance -> Resistance < R0 ->
  -1 <= Resistance / R0 - 1 < 0.
Proof.
  intros HR0 H0 Hlt.
  assert (Hi : 0 < / R0) by now apply Rinv_0_lt_compat.
  assert (0 <= Resistance * / R0) by (apply Rmult_le_pos; lra).
  assert (Resistance * / R0 < R0 * / R0) by (apply Rmult_lt_compat_r; assumption).
  rewrite Rinv_r in * by lra. unfold Rdiv. lra.
Qed.

Lemma ratio_lt (R1 R2 R0 : R) : 0 < R0 -> R1 < R2 -> R1 / R0 < R2 / R0.
Proof.
  intros HR0 Hlt. apply Rmult_lt_compat_r; [now apply Rinv_0_lt_compat | assumption].
Qed.

(** ** Platinum and copper: resistance to temperature *)

(** The platinum root for a resistance between [R0] and the resistance
    where the discriminant vanishes. *)
Lemma PT_root (A B Resistance R0 : R) :
  0 < R0 -> B < 0 -> R0 <= Resistance ->
  Resistance <= R0 * (1 - A ^ 2 / (4 * B)) ->
  exists t : R,
    quadratic_root A B Resistance R0 = Fin t /\
    0 <= A + 2 * B * t /\ Resistance / R0 = 1 + A * t + B * t ^ 2.
Proof.
  intros HR0 HB Hlo Hhi.
  destruct (quadratic_root_exists A B Resistance R0) as [t Ht]; try lra.
  - now apply discriminant_sign_neg.
  - exists t. split; [assumption |].
    destruct (quadratic_root_solution _ _ _ _ _ Ht) as (_ & _ & Hs & Hr).
    split; [assumption |]. rewrite Hr. field. lra.
Qed.

Lemma PT_root_nonneg (A B t w : R) :
  0 < A -> B < 0 -> 0 <= A + 2 * B * t -> w = 1 + A * t + B * t ^ 2 -> 1 <= w ->
  0 <= t.
Proof.
  intros HA HB Hs Hw H1.
  apply (solutions_ordered_le A B 0 t); try lra.
Qed.

Lemma PT_increasing_with (A B : R) (D : list R) (Type_ : Z) (R1 R2 R0 : R) :
  (forall Resistance, Resistance < R0 ->
     Get_Temperature_PT Resistance R0 Type_
     = Fin (power_series D 4 (Resistance / R0 - 1))) ->
  (forall Resistance, ~ Resistance < R0 ->
     Get_Temperature_PT Resistance R0 Type_ = quadratic_root A B Resistance R0) ->
  D = PT_D_385 \/ D = PT_D_391 \/ D = M_D_428 ->
  0 < A -> B < 0 -> 0 < R0 -> 0 <= R1 -> R1 < R2 ->
  R2 <= R0 * (1 - A ^ 2 / (4 * B)) ->
  dlt (Get_Temperature_PT R1 R0 Type_) (Get_Temperature_PT R2 R0 Type_).
Proof.
  intros Hbelow Habove HD HA HB HR0 H0 Hlt Hhi.
  destruct (Rlt_dec R2 R0) as [L2 | N2].
  - (* both on the series *)
    rewrite !Hbelow by lra. cbn [dlt].
    pose proof (ratio_in_unit R1 R0 HR0 H0 ltac:(lra)).
    pose proof (ratio_in_unit R2 R0 HR0 ltac:(lra) L2).
    pose proof (ratio_lt R1 R2 R0 HR0 Hlt).
    apply table_series_increasing; try assumption; lra.
  - destruct (PT_root A B R2 R0) as (t2 & E2 & Hs2 & Hw2); try lra.
    rewrite (Habove R2 N2), E2.
    assert (Ht2 : 0 <= t2).
    { apply (PT_root_nonneg A B t2 (R2 / R0)); try assumption.
      pose proof (ratio_lt R0 R2 R0 HR0) as Hr.
      destruct (Req_dec_T R0 R2) as [<- | Hne].
      - unfold Rdiv. rewrite Rinv_r; lra.
      - specialize (Hr ltac:(lra)). unfold Rdiv in Hr at 1.
        rewrite Rinv_r in Hr; lra. }
    destruct (Rlt_dec R1 R0) as [L1 | N1].
    + (* the series below, the root above *)
      rewrite (Hbelow R1 L1). cbn [dlt].
      pose proof (ratio_in_unit R1 R0 HR0 H0 L1) as Hx.
      assert (power_series D 4 (R1 / R0 - 1) < power_series D 4 0)
        by (apply table_series_increasing; try assumption; lra).
      rewrite power_series_at_0 in *. lra.
    + (* both on the root *)
      destruct (PT_root A B R1 R0) as (t1 & E1 & Hs1 & Hw1); try lra.
      rewrite (Habove R1 N1), E1. cbn [dlt].
      apply (solutions_ordered A B); try assumption; [lra |].
      rewrite <- Hw1, <- Hw2. now apply ratio_lt.
Qed.

Lemma platinum_constants :
  0 < PT_A_385 /\ PT_B_385 < 0 /\ 0 < PT_A_391 /\ PT_B_391 < 0 /\
  0 < M_A_428 /\ 0 < N_A_617 /\ 0 < N_B_617.
Proof. gost. lra. Qed.

(** ** The slope of the temperature *)

(** A 4-term series whose first coefficient dominates the others rises
    at least with the slope left over, for [-1 <= x <= 0]. *)
Lemma power_series_slope (d1 d2 d3 d4 m x1 x2 : R) :
  m + 2 * Rabs d2 + 3 * Rabs d3 + 4 * Rabs d4 <= d1 ->
  -1 <= x1 -> x1 <= x2 -> x2 <= 0 ->
  m * (x2 - x1)
  <= power_series [d1; d2; d3; d4] 4 x2 - power_series [d1; d2; d3; d4] 4 x1.
Proof.
  intros Hd Hlo Hle Hhi. rewrite !power_series_4.
  set (u := x1 + x2). set (q := x1 ^ 2 + x1 * x2 + x2 ^ 2).
  set (c := (x1 + x2) * (x1 ^ 2 + x2 ^ 2)).
  assert (E : (d1 * x2 + d2 * x2 ^ 2 + d3 * x2 ^ 3 + d4 * x2 ^ 4)
              - (d1 * x1 + d2 * x1 ^ 2 + d3 * x1 ^ 3 + d4 * x1 ^ 4)
              = (x2 - x1) * (d1 + d2 * u + d3 * q + d4 * c))
    by (unfold u, q, c; ring).
  assert (Hu : Rabs u <= 2) by (apply Rabs_le; unfold u; lra).
  assert (Hq : Rabs q <= 3) by (apply Rabs_le; unfold q; nra).
  assert (Hsq : 0 <= x1 ^ 2 + x2 ^ 2 <= 2) by nra.
  assert (Hc : Rabs c <= 4).
  { apply Rabs_le. unfold c. split.
    - assert (0 <= (- (x1 + x2)) * (x1 ^ 2 + x2 ^ 2) <= 2 * 2).
      { split; [apply Rmult_le_pos; lra |]. apply Rmult_le_compat; lra. }
      lra.
    - assert (0 <= (- (x1 + x2)) * (x1 ^ 2 + x2 ^ 2)) by (apply Rmult_le_pos; lra).
      lra. }
  pose proof (Rmult_abs_bound d2 u 2 Hu).
  pose proof (Rmult_abs_bound d3 q 3 Hq).
  pose proof (Rmult_abs_bound d4 c 4 Hc).
  rewrite E, (Rmult_comm m). apply Rmult_le_compat_l; lra.
Qed.

Lemma table_series_slope (D : list R) (x1 x2 : R) :
  D = PT_D_385 \/ D = PT_D_391 \/ D = M_D_428 ->
  -1 <= x1 -> x1 <= x2 -> x2 <= 0 ->
  200 * (x2 - x1) <= power_series D 4 x2 - power_series D 4 x1.
Proof.
  destruct Rabs_decimal_bounds as (H1 & H2 & H3).
  intros [-> | [-> | ->]]; apply power_series_slope.
  - rewrite (Rabs_right 9.14550), (Rabs_left (-2.92363)), (Rabs_right 1.79090); lra.
  - rewrite (Rabs_right 8.80035), (Rabs_left (-2.91506)), (Rabs_right 1.67611); lra.
  - rewrite (Rabs_right 7.9370), (Rabs_left (-2.0062)), (Rabs_left (-0.3953)); lra.
Qed.

(** For [B < 0] and [A] up to 0.005 the root rises at least 200 degrees
    for a rise of the ratio by one. *)
Lemma root_slope (A B t1 t2 : R) :
  0 < A <= 0.005 -> B < 0 ->
  0 <= t1 -> 0 <= A + 2 * B * t1 -> 0 <= A + 2 * B * t2 ->
  1 + A * t1 + B * t1 ^ 2 <= 1 + A * t2 + B * t2 ^ 2 ->
  200 * ((1 + A * t2 + B * t2 ^ 2) - (1 + A * t1 + B * t1 ^ 2)) <= t2 - t1.
Proof.
  intros HA HB Ht1 Hs1 Hs2 Hw.
  assert (Hle : t1 <= t2) by (apply (solutions_ordered_le A B); lra).
  assert (E : (1 + A * t2 + B * t2 ^ 2) - (1 + A * t1 + B * t1 ^ 2)
              = (t2 - t1) * (A + B * (t1 + t2))) by ring.
  rewrite E.
  assert (Hb : 0 <= (- B) * (t1 + t2)) by (apply Rmult_le_pos; lra).
  assert (H1 : (t2 - t1) * (A + B * (t1 + t2)) <= (t2 - t1) * 0.005)
    by (apply Rmult_le_compat_l; lra).
  lra.
Qed.

Lemma ratio_minus (R1 R2 R0 : R) :
  R0 <> 0 -> (R2 / R0 - 1) - (R1 / R0 - 1) = (R2 - R1) / R0.
Proof. intros HR0. field. assumption. Qed.

Lemma ratio_ge_1 (Resistance R0 : R) :
  0 < R0 -> R0 <= Resistance -> 1 <= Resistance / R0.
Proof.
  intros HR0 Hle.
  apply Rmult_le_reg_r with R0; [assumption |].
  unfold Rdiv. rewrite Rmult_assoc, Rinv_l; lra.
Qed.

Lemma PT_rising_with (A B : R) (D : list R) (Type_ : Z) (R1 R2 R0 : R) :
  (forall Resistance, Resistance < R0 ->
     Get_Temperature_PT Resistance R0 Type_
     = Fin (power_series D 4 (Resistance / R0 - 1))) ->
  (forall Resistance, ~ Resistance < R0 ->
     Get_Temperature_PT Resistance R0 Type_ = quadratic_root A B Resistance R0) ->
  D = PT_D_385 \/ D = PT_D_391 \/ D = M_D_428 ->
  0 < A <= 0.005 -> B < 0 -> 0 < R0 -> 0 <= R1 -> R1 <= R2 ->
  R2 <= R0 * (1 - A ^ 2 / (4 * B)) ->
  rises_by (Get_Temperature_PT R1 R0 Type_) (Get_Temperature_PT R2 R0 Type_)
           (200 * ((R2 - R1) / R0)).
Proof.
  intros Hbelow Habove HD HA HB HR0 H0 Hle Hhi.
  assert (HR0' : R0 <> 0) by lra.
  rewrite <- (ratio_minus R1 R2 R0 HR0').
  assert (Hr : R1 / R0 <= R2 / R0).
  { apply Rmult_le_compat_r; [| assumption].
    apply Rlt_le. now apply Rinv_0_lt_compat. }
  destruct (Rlt_dec R2 R0) as [L2 | N2].
  - (* both on the series *)
    rewrite !Hbelow by lra. apply rises_by_Fin.
    pose proof (ratio_in_unit R1 R0 HR0 H0 ltac:(lra)).
    pose proof (ratio_in_unit R2 R0 HR0 ltac:(lra) L2).
    pose proof (table_series_slope D (R1 / R0 - 1) (R2 / R0 - 1) HD).
    lra.
  - destruct (PT_root A B R2 R0) as (t2 & E2 & Hs2 & Hw2); try lra.
    rewrite (Habove R2 N2), E2.
    pose proof (ratio_ge_1 R2 R0 HR0 ltac:(lra)) as Hr2.
    assert (Ht2 : 200 * (R2 / R0 - 1) <= t2).
    { pose proof (root_slope A B 0 t2 HA HB) as Hs.
      rewrite Hw2 in *. lra. }
    destruct (Rlt_dec R1 R0) as [L1 | N1].
    + (* the series below, the root above *)
      rewrite (Hbelow R1 L1). apply rises_by_Fin.
      pose proof (ratio_in_unit R1 R0 HR0 H0 L1) as Hx.
      pose proof (table_series_slope D (R1 / R0 - 1) 0 HD) as Hs.
      rewrite power_series_at_0 in Hs. lra.
    + (* both on the root *)
      destruct (PT_root A B R1 R0) as (t1 & E1 & Hs1 & Hw1); try lra.
      rewrite (Habove R1 N1), E1. apply rises_by_Fin.
      pose proof (ratio_ge_1 R1 R0 HR0 ltac:(lra)) as Hr1.
      assert (Ht1 : 0 <= t1)
        by (apply (PT_root_nonneg A B t1 (R1 / R0)); try assumption; lra).
      pose proof (root_slope A B t1 t2 HA HB Ht1 Hs1 Hs2) as Hs.
      rewrite <- Hw1, <- Hw2 in Hs. lra.
Qed.

Lemma M_rising (R1 R2 R0 : R) :
  0 < R0 -> 0 <= R1 -> R1 <= R2 ->
  rises_by (Get_Temperature_M R1 R0 M_428) (Get_Temperature_M R2 R0 M_428)
           (200 * ((R2 - R1) / R0)).
Proof.
  intros HR0 H0 Hle.
  assert (HR0' : R0 <> 0) by lra.
  destruct platinum_constants as (_ & _ & _ & _ & AM & _).
  rewrite <- (ratio_minus R1 R2 R0 HR0').
  assert (Hr : R1 / R0 <= R2 / R0).
  { apply Rmult_le_compat_r; [| assumption].
    apply Rlt_le. now apply Rinv_0_lt_compat. }
  assert (HD : M_D_428 = PT_D_385 \/ M_D_428 = PT_D_391 \/ M_D_428 = M_D_428)
    by (right; now right).
  assert (Habove : forall w : R, 1 <= w -> 200 * (w - 1) <= (w - 1) / M_A_428).
  { intros w Hw.
    assert (Hi : 200 <= / M_A_428).
    { apply Rmult_le_reg_l with M_A_428; [assumption |].
      rewrite Rinv_r by lra. gost. lra. }
    unfold Rdiv. rewrite (Rmult_comm 200).
    apply Rmult_le_compat_l; lra. }
  destruct (Rlt_dec R2 R0) as [L2 | N2].
  - rewrite !Get_Temperature_M_below by lra. apply rises_by_Fin.
    pose proof (ratio_in_unit R1 R0 HR0 H0 ltac:(lra)).
    pose proof (ratio_in_unit R2 R0 HR0 ltac:(lra) L2).
    pose proof (table_series_slope M_D_428 (R1 / R0 - 1) (R2 / R0 - 1) HD).
    lra.
  - rewrite (Get_Temperature_M_above R2 R0) by lra.
    pose proof (ratio_ge_1 R2 R0 HR0 ltac:(lra)) as Hr2.
    destruct (Rlt_dec R1 R0) as [L1 | N1].
    + rewrite (Get_Temperature_M_below R1 R0) by assumption. apply rises_by_Fin.
      pose proof (ratio_in_unit R1 R0 HR0 H0 L1) as Hx.
      pose proof (table_series_slope M_D_428 (R1 / R0 - 1) 0 HD) as Hs.
      rewrite power_series_at_0 in Hs.
      pose proof (Habove (R2 / R0) Hr2). lra.
    + rewrite (Get_Temperature_M_above R1 R0) by lra. apply rises_by_Fin.
      pose proof (ratio_ge_1 R1 R0 HR0 ltac:(lra)) as Hr1.
      assert (E : (R2 / R0 - 1) / M_A_428 - (R1 / R0 - 1) / M_A_428
                  = (R2 / R0 - R1 / R0) * / M_A_428) by (unfold Rdiv; ring).
      assert (Hi : 200 <= / M_A_428).
      { apply Rmult_le_reg_l with M_A_428; [assumption |].
        rewrite Rinv_r by lra. gost. lra. }
      assert ((R2 / R0 - R1 / R0) * 200 <= (R2 / R0 - R1 / R0) * / M_A_428)
        by (apply Rmult_le_compat_l; lra).
      lra.
Qed.

(** X1.  For a nominal resistance from a milliohm to a megohm and two
    resistances from 0 to [4 R0] at least [1e-9 R0] apart, the platinum and
    copper temperature at the higher resistance is the greater, by at
    least 200 degrees for a rise of the resistance by [R0].  This holds
    across the switch from the power series to the closed form at [R0]. *)
Theorem temperature_increasing_apart (R1 R2 R0 : R)
    (HR0 : nominal_R0 R0) (H0 : 0 <= R1) (Hapart : R1 + 1e-9 * R0 <= R2)
    (Hhi : R2 <= 4 * R0) :
  (rises_by (Get_Temperature_PT R1 R0 PT_385) (Get_Temperature_PT R2 R0 PT_385)
            (200 * ((R2 - R1) / R0)) /\
   dlt (Get_Temperature_PT R1 R0 PT_385) (Get_Temperature_PT R2 R0 PT_385)) /\
  (rises_by (Get_Temperature_PT R1 R0 PT_391) (Get_Temperature_PT R2 R0 PT_391)
            (200 * ((R2 - R1) / R0)) /\
   dlt (Get_Temperature_PT R1 R0 PT_391) (Get_Temperature_PT R2 R0 PT_391)) /\
  (rises_by (Get_Temperature_M R1 R0 M_428) (Get_Temperature_M R2 R0 M_428)
            (200 * ((R2 - R1) / R0)) /\
   dlt (Get_Temperature_M R1 R0 M_428) (Get_Temperature_M R2 R0 M_428)).
Proof.
  pose proof (nominal_R0_pos R0 HR0) as HR0p.
  assert (HR0' : R0 <> 0) by lra.
  assert (Hcodes : PT_385 <> PT_391) by discriminate.
  assert (Hd : 0 < 200 * ((R2 - R1) / R0)).
  { apply Rmult_lt_0_compat; [lra |].
    apply Rmult_lt_0_compat; [nra | now apply Rinv_0_lt_compat]. }
  assert (H385 : rises_by (Get_Temperature_PT R1 R0 PT_385)
                   (Get_Temperature_PT R2 R0 PT_385) (200 * ((R2 - R1) / R0))).
  { apply (PT_rising_with PT_A_385 PT_B_385 PT_D_385); try assumption;
      try (gost; lra).
    - intros r Hr. now apply Get_Temperature_PT_below.
    - intros r Hr. now apply Get_Temperature_PT_above.
    - now left. }
  assert (H391 : rises_by (Get_Temperature_PT R1 R0 PT_391)
                   (Get_Temperature_PT R2 R0 PT_391) (200 * ((R2 - R1) / R0))).
  { apply (PT_rising_with PT_A_391 PT_B_391 PT_D_391); try assumption;
      try (gost; lra).
    - intros r Hr. now apply Get_Temperature_PT_below.
    - intros r Hr. now apply Get_Temperature_PT_above.
    - right. now left. }
  assert (HM : rises_by (Get_Temperature_M R1 R0 M_428)
                 (Get_Temperature_M R2 R0 M_428) (200 * ((R2 - R1) / R0)))
    by (apply M_rising; nra).
  repeat split; try assumption; eapply rises_strictly; eassumption.
Qed.

Lemma quadratic_root_at_R0 (A B R0 : R) :
  R0 <> 0 -> B <> 0 -> 0 <= A -> quadratic_root A B R0 R0 = Fin 0.
Proof.
  intros HR0 HB HA.
  replace R0 with (R0 * (1 + A * 0 + B * 0 ^ 2)) at 1 by ring.
  apply quadratic_root_exact; try assumption. lra.
Qed.

Lemma Temp_start_other (R0 : R) :
  R0 <> 100 -> R0 <> 500 -> R0 <> 1000 -> Temp_start R0 = 0.
Proof.
  intros H1 H2 H3. unfold Temp_start.
  destruct (Req_dec_T R0 100); [contradiction |].
  destruct (Req_dec_T R0 500); [contradiction |].
  destruct (Req_dec_T R0 1000); [contradiction | reflexivity].
Qed.

(** X2.  The reference point, for a nominal resistance from a milliohm to
    a megohm.  At [Resistance = R0] platinum, copper and the three
    supported nickel sensors read 0 degrees; platinum and copper read
    below 0 under [R0], and above 0 from [R0 (1 + 1e-9)] to [4 R0].  A
    nickel sensor with another [R0] reads about 0.294 degrees at its own
    [R0]. *)
Theorem temperature_around_R0 (Resistance R0 : R) (HR0 : nominal_R0 R0) :
  (Get_Temperature_PT R0 R0 PT_385 = Fin 0 /\
   Get_Temperature_PT R0 R0 PT_391 = Fin 0 /\
   Get_Temperature_M R0 R0 M_428 = Fin 0) /\
  (0 <= Resistance < R0 ->
   dlt (Get_Temperature_PT Resistance R0 PT_385) (Fin 0) /\
   dlt (Get_Temperature_PT Resistance R0 PT_391) (Fin 0) /\
   dlt (Get_Temperature_M Resistance R0 M_428) (Fin 0)) /\
  (R0 * (1 + 1e-9) <= Resistance <= 4 * R0 ->
   dlt (Fin 0) (Get_Temperature_PT Resistance R0 PT_385) /\
   dlt (Fin 0) (Get_Temperature_PT Resistance R0 PT_391) /\
   dlt (Fin 0) (Get_Temperature_M Resistance R0 M_428)) /\
  (R0 = 100 \/ R0 = 500 \/ R0 = 1000 -> Get_Temperature_N R0 R0 N_617 = Fin 0) /\
  (R0 <> 100 -> R0 <> 500 -> R0 <> 1000 ->
   exists t : R, Get_Temperature_N R0 R0 N_617 = Fin t /\ 0.294 < t < 0.295).
Proof.
  pose proof (nominal_R0_pos R0 HR0) as HR0p.
  assert (HR0' : R0 <> 0) by lra.
  assert (Hcodes : PT_385 <> PT_391) by discriminate.
  destruct platinum_constants as (A385 & B385 & A391 & B391 & AM & AN & BN).
  assert (Hirr : ~ R0 < R0) by lra.
  destruct (Get_Temperature_PT_above R0 R0 Hirr) as [E385 E391].
  specialize (E391 Hcodes).
  rewrite quadratic_root_at_R0 in E385, E391 by lra.
  assert (EM : Get_Temperature_M R0 R0 M_428 = Fin 0).
  { rewrite Get_Temperature_M_above by lra. f_equal. field. lra. }
  assert (Hthr385 : 4 * R0 <= R0 * (1 - PT_A_385 ^ 2 / (4 * PT_B_385)))
    by (gost; lra).
  assert (Hthr391 : 4 * R0 <= R0 * (1 - PT_A_391 ^ 2 / (4 * PT_B_391)))
    by (gost; lra).
  split; [now repeat split |].
  split; [| split; [| split]].
  - intros [H0 Hlt].
    repeat split.
    + rewrite <- E385.
      apply (PT_increasing_with PT_A_385 PT_B_385 PT_D_385); try assumption;
        [| | now left | lra].
      * intros r Hr. now apply Get_Temperature_PT_below.
      * intros r Hr. now apply Get_Temperature_PT_above.
    + rewrite <- E391.
      apply (PT_increasing_with PT_A_391 PT_B_391 PT_D_391); try assumption;
        [| | right; now left | lra].
      * intros r Hr. now apply Get_Temperature_PT_below.
      * intros r Hr. now apply Get_Temperature_PT_above.
    + rewrite Get_Temperature_M_below by assumption. cbn [dlt].
      pose proof (ratio_in_unit Resistance R0 HR0p H0 Hlt) as Hx.
      assert (power_series M_D_428 4 (Resistance / R0 - 1) < power_series M_D_428 4 0)
        by (apply table_series_increasing; try lra; right; now right).
      rewrite power_series_at_0 in *. assumption.
  - intros [Hgt Hhi].
    assert (Hgt' : R0 < Resistance) by nra.
    repeat split.
    + rewrite <- E385.
      apply (PT_increasing_with PT_A_385 PT_B_385 PT_D_385); try assumption;
        [| | now left | lra | lra].
      * intros r Hr. now apply Get_Temperature_PT_below.
      * intros r Hr. now apply Get_Temperature_PT_above.
    + rewrite <- E391.
      apply (PT_increasing_with PT_A_391 PT_B_391 PT_D_391); try assumption;
        [| | right; now left | lra | lra].
      * intros r Hr. now apply Get_Temperature_PT_below.
      * intros r Hr. now apply Get_Temperature_PT_above.
    + rewrite Get_Temperature_M_above by lra. cbn [dlt].
      pose proof (ratio_lt R0 Resistance R0 HR0p Hgt') as Hr.
      unfold Rdiv in Hr at 1. rewrite Rinv_r in Hr by lra.
      apply Rmult_lt_0_compat; [lra | now apply Rinv_0_lt_compat].
  - intros Hset.
    destruct (Temp_start_ratio R0 Hset) as (k & Hk & Hkr).
    rewrite Get_Temperature_N_below by (rewrite Hk; nra).
    apply quadratic_root_at_R0; lra.
  - intros H1 H2 H3.
    rewrite Get_Temperature_N_above
      by (try assumption; rewrite Temp_start_other by assumption; lra).
    eexists. split; [reflexivity |].
    replace (R0 / R0) with 1 by (field; assumption).
    unfold power_series. cbn [sum_1_to at_index nth N_D_617 Nat.sub]. lra.
Qed.

(** ** Magnitudes *)









(** ** The size of the closed-form root *)









(** ** Round trips on the closed-form branches *)

(** The nickel quadratic is increasing from -60 degrees on. *)
Lemma N_quadratic_le (T T0 : R) :
  -60 <= T -> T <= T0 ->
  1 + N_A_617 * T + N_B_617 * T ^ 2 <= 1 + N_A_617 * T0 + N_B_617 * T0 ^ 2.
Proof.
  intros Hlo Hle.
  assert (E : (1 + N_A_617 * T0 + N_B_617 * T0 ^ 2)
              - (1 + N_A_617 * T + N_B_617 * T ^ 2)
              = (T0 - T) * (N_A_617 + N_B_617 * (T + T0))) by ring.
  assert (0 <= (T0 - T) * (N_A_617 + N_B_617 * (T + T0)))
    by (apply Rmult_le_pos; [lra | gost; lra]).
  lra.
Qed.

(** Over the reals, temperature to resistance and back is the identity
    where the closed form is used: platinum from 0 to 3383 degrees, copper
    from 0 degrees on, nickel from -60 to 100 degrees for [R0] 100 and 1000
    and to 99.99 degrees for [R0] 500. *)
Lemma closed_form_round_trip_exact (T R0 : R) (HR0 : 0 < R0) :
  (0 <= T <= 3383 ->
   round_trip Get_Resistance_PT Get_Temperature_PT T R0 PT_385 = Fin T /\
   round_trip Get_Resistance_PT Get_Temperature_PT T R0 PT_391 = Fin T) /\
  (0 <= T ->
   round_trip Get_Resistance_M Get_Temperature_M T R0 M_428 = Fin T) /\
  (R0 = 100 \/ R0 = 1000 -> -60 <= T <= 100 ->
   round_trip Get_Resistance_N Get_Temperature_N T R0 N_617 = Fin T) /\
  (R0 = 500 -> -60 <= T <= 99.99 ->
   round_trip Get_Resistance_N Get_Temperature_N T R0 N_617 = Fin T).
Proof.
  assert (HR0' : R0 <> 0) by lra.
  assert (Hcodes : PT_385 <> PT_391) by discriminate.
  destruct platinum_constants as (A385 & B385 & A391 & B391 & AM & AN & BN).
  unfold round_trip.
  assert (HN : forall k : R,
             Temp_start R0 = R0 * k -> -60 <= T <= 100 ->
             1 + N_A_617 * T + N_B_617 * T ^ 2 < k ->
             and_then (Get_Resistance_N T R0 N_617)
               (fun Resistance => Get_Temperature_N Resistance R0 N_617) = Fin T).
  { intros k Hk HT Hw.
    rewrite Get_Resistance_N_ratio. cbn [and_then].
    assert (Ew : ratio_N N_A_617 N_B_617 N_C_617 T
                 = 1 + N_A_617 * T + N_B_617 * T ^ 2).
    { unfold ratio_N. destruct (Rlt_dec T 100) as [L | N]; [reflexivity |].
      assert (ET : T = 100) by lra. rewrite ET. ring. }
    rewrite Ew, Get_Temperature_N_below by (rewrite Hk; nra).
    apply quadratic_root_exact; try lra. gost. lra. }
  split; [| split; [| split]].
  - intros HT.
    destruct (Get_Resistance_PT_ratio T R0) as [E1 E2].
    rewrite E1, (E2 Hcodes). cbn [and_then]. unfold ratio_PT.
    destruct (Rlt_dec T 0) as [L | _]; [lra |].
    assert (H385 : 0 <= PT_A_385 + 2 * PT_B_385 * T) by (gost; lra).
    assert (H391 : 0 <= PT_A_391 + 2 * PT_B_391 * T) by (gost; lra).
    split.
    + assert (Hw : 1 <= 1 + PT_A_385 * T + PT_B_385 * T ^ 2).
      { assert (0 <= T * (PT_A_385 + PT_B_385 * T))
          by (apply Rmult_le_pos; lra). lra. }
      destruct (Get_Temperature_PT_above
                  (R0 * (1 + PT_A_385 * T + PT_B_385 * T ^ 2)) R0) as [E _]; [nra |].
      rewrite E. apply quadratic_root_exact; lra.
    + assert (Hw : 1 <= 1 + PT_A_391 * T + PT_B_391 * T ^ 2).
      { assert (0 <= T * (PT_A_391 + PT_B_391 * T))
          by (apply Rmult_le_pos; lra). lra. }
      destruct (Get_Temperature_PT_above
                  (R0 * (1 + PT_A_391 * T + PT_B_391 * T ^ 2)) R0) as [_ E]; [nra |].
      rewrite (E Hcodes). apply quadratic_root_exact; lra.
  - intros HT. rewrite Get_Resistance_M_ratio. cbn [and_then]. unfold ratio_M.
    destruct (Rlt_dec T 0) as [L | _]; [lra |].
    assert (Hw : 1 <= 1 + M_A_428 * T) by nra.
    rewrite Get_Temperature_M_above, ratio_cancel by (try assumption; nra).
    f_equal. field. lra.
  - intros Hset HT.
    destruct Temp_start_values as (E100 & _ & E1000).
    pose proof (N_quadratic_le T 100 ltac:(lra) ltac:(lra)) as Hle.
    assert (Hknee : 1 + N_A_617 * 100 + N_B_617 * 100 ^ 2 < 1.6172) by (gost; lra).
    apply (HN 1.6172); try assumption; [| lra].
    destruct Hset as [-> | ->]; [rewrite E100 | rewrite E1000]; lra.
  - intros -> HT.
    destruct Temp_start_values as (_ & E500 & _).
    pose proof (N_quadratic_le T 99.99 ltac:(lra) ltac:(lra)) as Hle.
    assert (Hknee : 1 + N_A_617 * 99.99 + N_B_617 * 99.99 ^ 2 < 1.61718)
      by (gost; lra).
    apply (HN 1.61718); lra.
Qed.

(** Over the reals, resistance to temperature and back is the identity
    where the closed form is used: platinum from [R0] to the end of the
    closed form, copper from [R0] on, the three nickel sensors below the
    ratio 1.61718 down to the end of the closed form. *)
Lemma closed_form_inverse_exact (Resistance R0 : R) (HR0 : 0 < R0) :
  (R0 <= Resistance ->
   (Resistance <= R0 * (1 - PT_A_385 ^ 2 / (4 * PT_B_385)) ->
    and_then (Get_Temperature_PT Resistance R0 PT_385)
      (fun T => Get_Resistance_PT T R0 PT_385) = Fin Resistance) /\
   (Resistance <= R0 * (1 - PT_A_391 ^ 2 / (4 * PT_B_391)) ->
    and_then (Get_Temperature_PT Resistance R0 PT_391)
      (fun T => Get_Resistance_PT T R0 PT_391) = Fin Resistance) /\
   and_then (Get_Temperature_M Resistance R0 M_428)
     (fun T => Get_Resistance_M T R0 M_428) = Fin Resistance) /\
  (R0 = 100 \/ R0 = 500 \/ R0 = 1000 ->
   R0 * (1 - N_A_617 ^ 2 / (4 * N_B_617)) <= Resistance ->
   Resistance < R0 * 1.61718 ->
   and_then (Get_Temperature_N Resistance R0 N_617)
     (fun T => Get_Resistance_N T R0 N_617) = Fin Resistance).
Proof.
  assert (HR0' : R0 <> 0) by lra.
  assert (Hcodes : PT_385 <> PT_391) by discriminate.
  destruct platinum_constants as (A385 & B385 & A391 & B391 & AM & AN & BN).
  split.
  - intros Hlo.
    assert (Hr : 1 <= Resistance / R0).
    { destruct (Req_dec_T R0 Resistance) as [<- | Hne].
      - unfold Rdiv. rewrite Rinv_r; lra.
      - pose proof (ratio_lt R0 Resistance R0 HR0 ltac:(lra)) as Hr.
        unfold Rdiv in Hr at 1. rewrite Rinv_r in Hr; lra. }
    destruct (Get_Temperature_PT_above Resistance R0) as [E385 E391]; [lra |].
    specialize (E391 Hcodes).
    repeat split.
    + intros Hhi.
      destruct (PT_root PT_A_385 PT_B_385 Resistance R0) as (t & Et & Hs & Hw);
        try assumption.
      rewrite E385, Et. cbn [and_then].
      pose proof (PT_root_nonneg _ _ t _ A385 B385 Hs Hw Hr) as Ht.
      destruct (Get_Resistance_PT_ratio t R0) as [E _]. rewrite E.
      unfold ratio_PT. destruct (Rlt_dec t 0) as [L | _]; [lra |].
      rewrite <- Hw. f_equal. field. assumption.
    + intros Hhi.
      destruct (PT_root PT_A_391 PT_B_391 Resistance R0) as (t & Et & Hs & Hw);
        try assumption.
      rewrite E391, Et. cbn [and_then].
      pose proof (PT_root_nonneg _ _ t _ A391 B391 Hs Hw Hr) as Ht.
      destruct (Get_Resistance_PT_ratio t R0) as [_ E]. rewrite (E Hcodes).
      unfold ratio_PT. destruct (Rlt_dec t 0) as [L | _]; [lra |].
      rewrite <- Hw. f_equal. field. assumption.
    + rewrite Get_Temperature_M_above by lra. cbn [and_then].
      rewrite Get_Resistance_M_ratio. unfold ratio_M.
      assert (Ht : 0 <= (Resistance / R0 - 1) / M_A_428).
      { apply Rmult_le_pos; [lra |]. apply Rlt_le. now apply Rinv_0_lt_compat. }
      destruct (Rlt_dec _ 0) as [L | _]; [lra |].
      f_equal. field. lra.
  - intros Hset Hlo Hhi.
    destruct (Temp_start_ratio R0 Hset) as (k & Hk & Hkr).
    rewrite Get_Temperature_N_below by (rewrite Hk; nra).
    destruct (quadratic_root_exists N_A_617 N_B_617 Resistance R0) as [t Et];
      try lra.
    { now apply discriminant_sign_pos. }
    rewrite Et. cbn [and_then].
    destruct (quadratic_root_solution _ _ _ _ _ Et) as (_ & _ & Hs & Hw).
    assert (Ht : t < 100).
    { assert (1 + N_A_617 * t + N_B_617 * t ^ 2 < 1.61718) by nra.
      assert (1.61718 < 1 + N_A_617 * 100 + N_B_617 * 100 ^ 2) by (gost; lra).
      apply (solutions_ordered N_A_617 N_B_617); lra. }
    rewrite Get_Resistance_N_ratio. unfold ratio_N.
    destruct (Rlt_dec t 100) as [_ | N]; [| lra].
    now rewrite <- Hw.
Qed.

Lemma near_Fin (x : double) (r eps : R) : 0 <= eps -> x = Fin r -> near x r eps.
Proof. intros Heps ->. now apply near_exact. Qed.

(** X3.  Temperature to resistance and back, where the closed form is
    used, gives the temperature back within 1e-9 degrees: for a nominal
    resistance from a milliohm to a megohm, platinum from 0 to 850 degrees
    and copper from 0 to 200 degrees; the three nickel sensors from -60 to
    99.99 degrees. *)
Theorem closed_form_round_trip (T R0 : R) (HR0 : nominal_R0 R0) :
  (0 <= T <= 850 ->
   near (round_trip Get_Resistance_PT Get_Temperature_PT T R0 PT_385) T 1e-9 /\
   near (round_trip Get_Resistance_PT Get_Temperature_PT T R0 PT_391) T 1e-9) /\
  (0 <= T <= 200 ->
   near (round_trip Get_Resistance_M Get_Temperature_M T R0 M_428) T 1e-9) /\
  (R0 = 100 \/ R0 = 500 \/ R0 = 1000 -> -60 <= T <= 99.99 ->
   near (round_trip Get_Resistance_N Get_Temperature_N T R0 N_617) T 1e-9).
Proof.
  pose proof (nominal_R0_pos R0 HR0) as HR0p.
  destruct (closed_form_round_trip_exact T R0 HR0p) as (HPT & HM & HN & HN500).
  split; [| split].
  - intros HT. destruct HPT as [E1 E2]; [lra |].
    split; apply near_Fin; (lra || assumption).
  - intros HT. apply near_Fin; [lra |]. apply HM. lra.
  - intros [E | [E | E]] HT; apply near_Fin; try lra.
    + apply HN; [now left | lra].
    + now apply HN500.
    + apply HN; [now right | lra].
Qed.

(** X4.  Resistance to temperature and back, where the closed form is
    used, gives the resistance back within [1e-9 R0]: for a nominal
    resistance from a milliohm to a megohm, platinum and copper from [R0]
    to [4 R0]; the three nickel sensors from [0.5 R0] to [1.617 R0]. *)
Theorem closed_form_inverse (Resistance R0 : R) (HR0 : nominal_R0 R0) :
  (R0 <= Resistance <= 4 * R0 ->
   near (and_then (Get_Temperature_PT Resistance R0 PT_385)
           (fun T => Get_Resistance_PT T R0 PT_385)) Resistance (1e-9 * R0) /\
   near (and_then (Get_Temperature_PT Resistance R0 PT_391)
           (fun T => Get_Resistance_PT T R0 PT_391)) Resistance (1e-9 * R0) /\
   near (and_then (Get_Temperature_M Resistance R0 M_428)
           (fun T => Get_Resistance_M T R0 M_428)) Resistance (1e-9 * R0)) /\
  (R0 = 100 \/ R0 = 500 \/ R0 = 1000 ->
   0.5 * R0 <= Resistance <= 1.617 * R0 ->
   near (and_then (Get_Temperature_N Resistance R0 N_617)
           (fun T => Get_Resistance_N T R0 N_617)) Resistance (1e-9 * R0)).
Proof.
  pose proof (nominal_R0_pos R0 HR0) as HR0p.
  assert (Heps : 0 <= 1e-9 * R0) by lra.
  destruct (closed_form_inverse_exact Resistance R0 HR0p) as (HPT & HN).
  split.
  - intros [Hlo Hhi]. destruct (HPT Hlo) as (E385 & E391 & EM).
    repeat split; apply near_Fin; try assumption.
    + apply E385. gost. lra.
    + apply E391. gost. lra.
  - intros Hset [Hlo Hhi]. apply near_Fin; [assumption |].
    apply HN; try assumption; gost; lra.
Qed.

(** ** Scaling the sensor *)

Lemma ddiv_scale (k a b : R) :
  k <> 0 -> ddiv (Fin (k * a)) (Fin (k * b)) = ddiv (Fin a) (Fin b).
Proof.
  intros Hk. unfold ddiv.
  destruct (Req_dec_T (k * b) 0) as [E | N], (Req_dec_T b 0) as [E' | N'].
  - reflexivity.
  - apply Rmult_integral in E. destruct E; contradiction.
  - subst b. rewrite Rmult_0_r in N. now elim N.
  - f_equal. field. split; assumption.
Qed.

Lemma Rlt_dec_scale (A : Type) (k a b : R) (x y : A) :
  0 < k ->
  (if Rlt_dec (k * a) (k * b) then x else y) = (if Rlt_dec a b then x else y).
Proof.
  intros Hk.
  destruct (Rlt_dec (k * a) (k * b)) as [L | N], (Rlt_dec a b) as [L' | N'];
    try reflexivity; exfalso.
  - apply N'. now apply Rmult_lt_reg_l with k.
  - apply N. now apply Rmult_lt_compat_l.
Qed.

Section Scaling.

Context {h : rtd_calculator_h}.

(** X5.  The platinum and copper temperatures depend on the resistance and
    on [R0] through their ratio only: a sensor of [k] times the nominal
    resistance reads at [k] times the resistance what the sensor itself
    reads, whatever the selector, also for [R0 = 0]. *)
Theorem sensor_scaling (k x R0 : R) (Type_ : Z) (Hk : 0 < k) :
  Get_Temperature_PT (k * x) (k * R0) Type_ = Get_Temperature_PT x R0 Type_ /\
  Get_Temperature_M (k * x) (k * R0) Type_ = Get_Temperature_M x R0 Type_.
Proof.
  assert (Hk' : k <> 0) by lra.
  split.
  - unfold Get_Temperature_PT. rewrite (ddiv_scale k x R0 Hk').
    now rewrite Rlt_dec_scale.
  - unfold Get_Temperature_M. rewrite (ddiv_scale k x R0 Hk').
    now rewrite Rlt_dec_scale.
Qed.

(** The nickel sensors of 100 and 1000 ohms agree at equal ratios; the
    sensor of 500 ohms agrees with them except for the ratios from 1.61718
    to 1.6172, between its knee and theirs. *)
Lemma nickel_scaling (Resistance : R) (Type_ : Z) :
  Get_Temperature_N (10 * Resistance) 1000 Type_
    = Get_Temperature_N Resistance 100 Type_ /\
  (~ (161.718 <= Resistance < 161.72) ->
   Get_Temperature_N (5 * Resistance) 500 Type_
     = Get_Temperature_N Resistance 100 Type_).
Proof.
  destruct Temp_start_values as (E100 & E500 & E1000).
  assert (D10 : ddiv (Fin (10 * Resistance)) (Fin 1000)
               = ddiv (Fin Resistance) (Fin 100)).
  { rewrite !ddiv_Fin by lra. f_equal. field. }
  assert (D5 : ddiv (Fin (5 * Resistance)) (Fin 500)
              = ddiv (Fin Resistance) (Fin 100)).
  { rewrite !ddiv_Fin by lra. f_equal. field. }
  unfold Get_Temperature_N. rewrite E100, E500, E1000, D10, D5.
  split.
  - destruct (Rlt_dec (10 * Resistance) 1617.2), (Rlt_dec Resistance 161.72);
      try reflexivity; exfalso; lra.
  - intros Hout.
    destruct (Rlt_dec (5 * Resistance) 808.59), (Rlt_dec Resistance 161.72);
      try reflexivity; exfalso; lra.
Qed.

End Scaling.

(** ** The nickel knee *)

Lemma N_root (Resistance R0 : R) :
  0 < R0 -> R0 * (1 - N_A_617 ^ 2 / (4 * N_B_617)) <= Resistance ->
  exists t : R,
    quadratic_root N_A_617 N_B_617 Resistance R0 = Fin t /\
    0 <= N_A_617 + 2 * N_B_617 * t /\
    Resistance / R0 = 1 + N_A_617 * t + N_B_617 * t ^ 2.
Proof.
  intros HR0 Hlo.
  destruct platinum_constants as (_ & _ & _ & _ & _ & AN & BN).
  destruct (quadratic_root_exists N_A_617 N_B_617 Resistance R0) as [t Ht]; try lra.
  - now apply discriminant_sign_pos.
  - exists t. split; [assumption |].
    destruct (quadratic_root_solution _ _ _ _ _ Ht) as (_ & _ & Hs & Hr).
    split; [assumption |]. rewrite Hr. field. lra.
Qed.

(** The nickel root is at least [T0] when the ratio is at least the
    quadratic at [T0]. *)
Lemma N_root_ge (t w T0 : R) :
  0 <= T0 -> 0 <= N_A_617 + 2 * N_B_617 * t ->
  w = 1 + N_A_617 * t + N_B_617 * t ^ 2 ->
  1 + N_A_617 * T0 + N_B_617 * T0 ^ 2 <= w ->
  T0 <= t.
Proof.
  intros HT0 Hs Hw Hle.
  destruct platinum_constants as (_ & _ & _ & _ & _ & AN & BN).
  apply (solutions_ordered_le N_A_617 N_B_617); try lra. nra.
Qed.

(** For a ratio under 1.6172 the nickel series is under
    [100 + 144.096 (ratio - 1.6172)]. *)
Lemma N_series_below (x : R) :
  x < 0 ->
  100 + power_series N_D_617 3 x < 100 + 144.096 * x /\
  100 + power_series N_D_617 3 x < 100.
Proof.
  intros Hx. unfold power_series. cbn [sum_1_to at_index nth N_D_617 Nat.sub].
  assert (0 < x ^ 2) by nra.
  assert (x ^ 3 < 0) by nra.
  split; lra.
Qed.

(** X6.  The conversion of nickel is not continuous at the knee.  For each
    supported sensor, a resistance within one millionth of [R0] under the
    knee reads more than 0.0017 degrees above what the knee itself reads
    (which is 100 degrees or just under): the temperature falls when the
    resistance reaches the knee. *)
Theorem nickel_knee_drop (Resistance R0 : R)
    (HR0 : R0 = 100 \/ R0 = 500 \/ R0 = 1000)
    (Hlo : Temp_start R0 - R0 * 1e-6 <= Resistance)
    (Hhi : Resistance < Temp_start R0) :
  exists t_knee t : R,
    Get_Temperature_N (Temp_start R0) R0 N_617 = Fin t_knee /\
    Get_Temperature_N Resistance R0 N_617 = Fin t /\
    t_knee + 0.0017 < t /\
    99.997 < t_knee <= 100.
Proof.
  destruct (Temp_start_ratio R0 HR0) as (k & Hk & Hkr).
  assert (HR0p : 0 < R0) by lra.
  assert (HR0' : R0 <> 0) by lra.
  (* at the knee: the series *)
  rewrite (Get_Temperature_N_above (Temp_start R0) R0) by lra.
  rewrite Hk, ratio_cancel by assumption.
  (* under the knee: the root *)
  rewrite Get_Temperature_N_below by assumption.
  destruct (N_root Resistance R0 HR0p) as (t & Et & Hs & Hw).
  { rewrite Hk in Hlo. assert (R0 * 1.5 <= Resistance) by nra.
    assert (R0 * (1 - N_A_617 ^ 2 / (4 * N_B_617)) <= R0 * 0)
      by (apply Rmult_le_compat_l; [lra | gost; lra]).
    nra. }
  rewrite Et.
  assert (Hr : k - 1e-6 <= Resistance / R0).
  { apply Rmult_le_reg_l with R0; [assumption |].
    replace (R0 * (Resistance / R0)) with Resistance by (field; assumption).
    rewrite Hk in Hlo. lra. }
  assert (Hknee : k = 1.6172 \/ k = 1.61718).
  { destruct Temp_start_values as (E100 & E500 & E1000).
    destruct HR0 as [-> | [-> | ->]]; rewrite ?E100, ?E500, ?E1000 in Hk; lra. }
  eexists. exists t. split; [reflexivity | split; [reflexivity |]].
  destruct Hknee as [-> | ->].
  - replace (1.6172 - 1.6172) with 0 by lra. rewrite power_series_at_0.
    assert (100.0018 <= t).
    { apply (N_root_ge t (Resistance / R0)); try assumption; [lra |].
      revert Hr. gost. lra. }
    lra.
  - destruct (N_series_below (1.61718 - 1.6172)) as [Hv _]; [lra |].
    assert (99.9989 <= t).
    { apply (N_root_ge t (Resistance / R0)); try assumption; [lra |].
      revert Hr. gost. lra. }
    split; [lra |]. split; [| lra].
    unfold power_series. cbn [sum_1_to at_index nth N_D_617 Nat.sub]. lra.
Qed.

(** X7.  The three nickel sensors compared at equal ratios.  Those of 100
    and 1000 ohms always agree.  That of 500 ohms agrees with them except
    between its knee (ratio 1.61718) and theirs (1.6172), where it is
    converted by the series and reads lower than they do. *)
Theorem nickel_sensors_compared (Resistance : R) :
  Get_Temperature_N (10 * Resistance) 1000 N_617
    = Get_Temperature_N Resistance 100 N_617 /\
  (~ (161.718 <= Resistance < 161.72) ->
   Get_Temperature_N (5 * Resistance) 500 N_617
     = Get_Temperature_N Resistance 100 N_617) /\
  (161.718 <= Resistance < 161.72 ->
   dlt (Get_Temperature_N (5 * Resistance) 500 N_617)
       (Get_Temperature_N Resistance 100 N_617)).
Proof.
  destruct (nickel_scaling Resistance N_617) as [E10 E5].
  split; [exact E10 | split; [exact E5 |]].
  intros [Hlo Hhi].
  destruct Temp_start_values as (E100 & E500 & _).
  rewrite (Get_Temperature_N_above (5 * Resistance) 500) by (rewrite ?E500; lra).
  rewrite (Get_Temperature_N_below Resistance 100) by (rewrite E100; lra).
  destruct (N_root Resistance 100) as (t & Et & Hs & Hw); try lra.
  { assert (100 * (1 - N_A_617 ^ 2 / (4 * N_B_617)) <= 0) by (gost; lra). lra. }
  rewrite Et. cbn [dlt].
  replace (5 * Resistance / 500) with (Resistance / 100) by field.
  set (w := Resistance / 100) in *.
  assert (Hwr : 1.61718 <= w < 1.6172) by (unfold w; lra).
  destruct (N_series_below (w - 1.6172)) as [Hv1 Hv2]; [lra |].
  destruct (Rlt_dec w 1.617186) as [Hlow | Hup].
  - assert (99.999 <= t).
    { apply (N_root_ge t w); try assumption; [lra |].
      destruct Hwr as [Hwr _]. revert Hwr. gost. lra. }
    lra.
  - assert (100 <= t).
    { apply (N_root_ge t w); try assumption; [lra |].
      assert (Hup' : 1.617186 <= w) by lra. revert Hup'. gost. lra. }
    lra.
Qed.
(** * Further properties of the driver *)

(** ** The bus *)

Lemma chip_select_after_app (selected : bool) (l1 l2 : list spi_event) :
  chip_select_after selected (l1 ++ l2)
  = match chip_select_after selected l1 with
    | Some selected' => chip_select_after selected' l2
    | None => None
    end.
Proof.
  revert selected. induction l1 as [| e l1 IH]; intros selected; [reflexivity |].
  destruct e, selected; cbn [app chip_select_after]; auto.
Qed.

Lemma last_configuration_app (l1 l2 : list spi_event) (cfg : option Z) :
  last_configuration (l1 ++ l2) cfg
  = last_configuration l2 (last_configuration l1 cfg).
Proof.
  revert cfg. induction l1 as [| e l1 IH]; intros cfg; [reflexivity |].
  destruct e as [| | data |]; cbn [app last_configuration]; auto.
  destruct data as [| a [| v [| ? ?]]]; auto.
  destruct (a =? 128)%Z; auto.
Qed.

(** Unfolds the bus of a state after some events. *)
Ltac bus_events :=
  unfold MAX31865_Get_Resistance, MAX31865_Configuration_info, MAX31865_Init,
    spi, set_Sensor_Error;
  cbn [snd fst spi_bus MAX31865_Sensor_Error Fault_Status];
  rewrite <- ?app_assoc; cbn [app].

(** Every call only adds to the bus, and what it adds is a sequence of
    complete transfers. *)
Lemma call_bus (c : driver_call) (s : driver_state) :
  exists events : list spi_event,
    spi_bus (call s c) = spi_bus s ++ events /\
    chip_select_after false events = Some false.
Proof.
  destruct c as [num_wires | answer | answer]; cbn [call].
  - eexists. split; [bus_events; reflexivity |].
    destruct ((num_wires =? 2) || (num_wires =? 4))%Z, (num_wires =? 3)%Z; reflexivity.
  - eexists. split; [bus_events; reflexivity | reflexivity].
  - unfold MAX31865_Get_Resistance. cbn [snd Fault_Status].
    destruct (nth 6 answer 0 >? 0)%Z.
    + eexists. split; [bus_events; reflexivity | reflexivity].
    + eexists. split; [bus_events; reflexivity | reflexivity].
Qed.

(** X8.  Chip select.  Whatever the calls and the answers of the chip, the
    driver asserts chip select only when it is released, moves bytes only
    while it is asserted, and leaves it released after each call. *)
Theorem chip_select_discipline (calls : list driver_call) (s : driver_state)
    (Hs : chip_select_after false (spi_bus s) = Some false) :
  chip_select_after false (spi_bus (run calls s)) = Some false.
Proof.
  unfold run. revert s Hs. induction calls as [| c calls IH]; intros s Hs.
  - exact Hs.
  - cbn [fold_left]. apply IH.
    destruct (call_bus c s) as (events & Ebus & Hev).
    rewrite Ebus, chip_select_after_app, Hs. exact Hev.
Qed.

(** ** The error flag *)

Lemma call_Sensor_Error (c : driver_call) (s : driver_state) :
  MAX31865_Sensor_Error s = false -> MAX31865_Sensor_Error (call s c) = false.
Proof.
  intros Hs. destruct c as [num_wires | answer | answer]; cbn [call].
  - reflexivity.
  - exact Hs.
  - unfold MAX31865_Get_Resistance. cbn [snd Fault_Status].
    destruct (nth 6 answer 0 >? 0)%Z; [reflexivity | exact Hs].
Qed.

(** X9.  The error flag is never left set.  A read-out that meets a fault
    returns with the flag cleared, whatever it was; no call sets it; so
    from a cleared flag (its initial value) no sequence of calls and
    answers ever shows it set. *)
Theorem Sensor_Error_never_set :
  (forall (answer : list Z) (s : driver_state),
     (fault_status answer > 0)%Z ->
     MAX31865_Sensor_Error (snd (MAX31865_Get_Resistance answer s)) = false) /\
  (forall (calls : list driver_call) (s : driver_state),
     MAX31865_Sensor_Error s = false ->
     MAX31865_Sensor_Error (run calls s) = false).
Proof.
  split.
  - intros answer s Hfault. unfold MAX31865_Get_Resistance, fault_status in *.
    cbn [snd Fault_Status].
    destruct (Z.gtb_spec (nth 6 answer 0%Z) 0) as [_ | N]; [reflexivity | lia].
  - intros calls. unfold run. induction calls as [| c calls IH]; intros s Hs.
    + exact Hs.
    + cbn [fold_left]. apply IH. now apply call_Sensor_Error.
Qed.

(** ** The configuration *)

(** X10.  The configuration written.  [MAX31865_Init] writes 0xC3 for 2 or 4
    wires, 0xD3 for 3 wires and 0x00 for any other number; a read-out
    without a fault leaves the configuration as it is; a read-out that
    meets a fault writes the 3-wire configuration 0xD3, whatever the
    wiring the chip was initialised for. *)
Theorem configuration_written (num_wires : Z) (answer : list Z)
    (s : driver_state) (cfg : option Z) :
  last_configuration (spi_bus (MAX31865_Init num_wires s)) cfg
    = Some (if ((num_wires =? 2) || (num_wires =? 4))%Z then 0xC3
            else if (num_wires =? 3)%Z then 0xD3 else 0x00)%Z /\
  last_configuration (spi_bus (snd (MAX31865_Get_Resistance answer s))) cfg
    = (if (fault_status answer >? 0)%Z then Some 0xD3%Z
       else last_configuration (spi_bus s) cfg) /\
  ((fault_status answer > 0)%Z ->
   last_configuration
     (spi_bus (run [Call_Init num_wires; Call_Get_Resistance answer] s)) cfg
     = Some 0xD3%Z).
Proof.
  assert (HGR : forall s0 : driver_state,
             last_configuration
               (spi_bus (snd (MAX31865_Get_Resistance answer s0))) cfg
             = (if (fault_status answer >? 0)%Z then Some 0xD3%Z
                else last_configuration (spi_bus s0) cfg)).
  { intros s0. unfold fault_status, MAX31865_Get_Resistance.
    cbn [snd Fault_Status].
    destruct (nth 6 answer 0 >? 0)%Z;
      bus_events; rewrite last_configuration_app; reflexivity. }
  split; [| split].
  - bus_events. rewrite last_configuration_app.
    destruct ((num_wires =? 2) || (num_wires =? 4))%Z, (num_wires =? 3)%Z; reflexivity.
  - apply HGR.
  - intros Hfault. unfold run. cbn [fold_left call]. rewrite HGR.
    destruct (Z.gtb_spec (fault_status answer) 0) as [_ | N]; [reflexivity | lia].
Qed.

(** ** The read-out *)

Lemma readout_value (b0 b1 : Z) (rest : list Z) (s : driver_state) :
  is_byte b0 -> is_byte b1 ->
  fst (MAX31865_Get_Resistance (b0 :: b1 :: rest) s)
  = Fin (IZR (adc_code b0 b1) * MAX31865_R_REF / 32768).
Proof.
  intros H0 H1. pose proof (adc_code_range b0 b1 H0 H1) as Hrange.
  unfold MAX31865_Get_Resistance.
  cbn [fst nth RTD_Resistance_Registers].
  rewrite (lor_bytes b0 b1 H0 H1). fold (adc_code b0 b1).
  assert (E : to_uint16 (adc_code b0 b1) = adc_code b0 b1).
  { unfold to_uint16. apply Z.mod_small. lia. }
  rewrite E. cbn [dmul dlift2].
  apply ddiv_Fin. lra.
Qed.

Lemma lxor_1_byte (b : Z) : is_byte b -> is_byte (Z.lxor b 1).
Proof.
  unfold is_byte. intros Hb.
  assert (H0 : (0 <= Z.lxor b 1)%Z) by (apply Z.lxor_nonneg; lia).
  split; [assumption |].
  destruct (Z.eq_dec (Z.lxor b 1) 0) as [E | N]; [lia |].
  change 256%Z with (2 ^ 8)%Z.
  apply Z.log2_lt_pow2; [lia |].
  eapply Z.le_lt_trans; [apply Z.log2_lxor; lia |].
  apply Z.max_lub_lt.
  - destruct (Z.eq_dec b 0) as [-> | Hnz]; [cbn; lia |].
    apply Z.log2_lt_pow2; lia.
  - cbn. lia.
Qed.

Lemma adc_code_bit_0 (b0 b1 : Z) :
  is_byte b0 -> is_byte b1 -> adc_code b0 (Z.lxor b1 1) = adc_code b0 b1.
Proof.
  intros H0 H1. pose proof (lxor_1_byte b1 H1) as H1'.
  unfold adc_code.
  rewrite <- !lor_bytes by assumption.
  rewrite !Z.shiftr_lor, Z.shiftr_lxor.
  change (Z.shiftr 1 1) with 0%Z. now rewrite Z.lxor_0_r.
Qed.

(** X11.  The read-out.  For every answer of the chip the resistance is a
    finite value from 0 up to, but not reaching, the reference resistor; it
    depends on the first two bytes only, and not on the lowest bit of the
    second, nor on the state of the driver. *)
Theorem readout_range (b0 b1 : Z) (rest rest' : list Z) (s s' : driver_state)
    (H0 : is_byte b0) (H1 : is_byte b1) :
  (exists r : R,
     fst (MAX31865_Get_Resistance (b0 :: b1 :: rest) s) = Fin r /\
     0 <= r < MAX31865_R_REF) /\
  fst (MAX31865_Get_Resistance (b0 :: Z.lxor b1 1 :: rest') s')
    = fst (MAX31865_Get_Resistance (b0 :: b1 :: rest) s).
Proof.
  pose proof (adc_code_range b0 b1 H0 H1) as [Hlo Hhi].
  split.
  - rewrite readout_value by assumption. eexists. split; [reflexivity |].
    apply IZR_le in Hlo. apply IZR_lt in Hhi.
    change (2 ^ 15)%Z with 32768%Z in Hhi.
    unfold MAX31865_R_REF. lra.
  - rewrite !readout_value by (try apply lxor_1_byte; assumption).
    now rewrite adc_code_bit_0.
Qed.

(** ** From the bytes to the temperature *)

(** X12.  The temperature of the driver.  With the platinum code
    [PT_385 = 0] of the header and [PT100_R0 = 100], the temperature
    computed from any read-out is a finite value between -241.96 and 984
    degrees: no answer of the chip leads to a non-finite temperature. *)
Theorem driver_temperature_range (b0 b1 : Z) (rest : list Z) (s : driver_state)
    (H0 : is_byte b0) (H1 : is_byte b1) :
  exists t : R,
    and_then (fst (MAX31865_Get_Resistance (b0 :: b1 :: rest) s))
             (MAX31865_Get_Temperature 100) = Fin t /\
    -241.96 <= t < 984.
Proof.
  pose proof (adc_code_range b0 b1 H0 H1) as [Hlo Hhi].
  rewrite readout_value by assumption. cbn [and_then].
  apply IZR_le in Hlo. apply IZR_lt in Hhi.
  change (2 ^ 15)%Z with 32768%Z in Hhi.
  set (r := IZR (adc_code b0 b1) * MAX31865_R_REF / 32768).
  assert (Hr : 0 <= r < 428.5) by (unfold r, MAX31865_R_REF; lra).
  clearbody r.
  unfold MAX31865_Get_Temperature. change 0%Z with PT_385.
  destruct platinum_constants as (A385 & B385 & _).
  destruct (Rlt_dec r 100) as [L | N].
  - destruct (Get_Temperature_PT_below r 100) as [E _]; [lra | assumption |].
    rewrite E. eexists. split; [reflexivity |].
    pose proof (ratio_in_unit r 100 ltac:(lra) ltac:(lra) L) as Hx.
    assert (Hup : power_series PT_D_385 4 (r / 100 - 1) < power_series PT_D_385 4 0)
      by (apply table_series_increasing; try lra; now left).
    rewrite power_series_at_0 in Hup.
    assert (Hdn : power_series PT_D_385 4 (-1) <= power_series PT_D_385 4 (r / 100 - 1)).
    { destruct (Req_dec_T (-1) (r / 100 - 1)) as [<- | Hne]; [lra |].
      apply Rlt_le. apply table_series_increasing; try lra. now left. }
    assert (Hv : -241.96 <= power_series PT_D_385 4 (-1)).
    { unfold power_series. cbn [sum_1_to at_index nth PT_D_385 Nat.sub]. lra. }
    lra.
  - destruct (Get_Temperature_PT_above r 100 N) as [E _]. rewrite E.
    destruct (PT_root PT_A_385 PT_B_385 r 100) as (t & Et & Hs & Hw); try lra.
    { gost. lra. }
    rewrite Et. exists t. split; [reflexivity |].
    assert (Hw1 : 1 <= r / 100 < 4.285) by lra.
    assert (0 <= t) by (apply (PT_root_nonneg PT_A_385 PT_B_385 t (r / 100)); lra).
    split; [lra |].
    apply (solutions_ordered PT_A_385 PT_B_385); try lra.
    + gost. lra.
    + rewrite <- Hw. destruct Hw1 as [_ Hw1]. revert Hw1. gost. lra.
Qed.

(** ** The further theorems at concrete inputs *)


Lemma temperature_increasing_apart_witness :
  nominal_R0 100 /\ 0 <= 80 /\ 80 + 1e-9 * 100 <= 120 /\ 120 <= 4 * 100 /\
  rises_by (Get_Temperature_PT 80 100 PT_385) (Get_Temperature_PT 120 100 PT_385)
           (200 * ((120 - 80) / 100)) /\
  dlt (Get_Temperature_PT 80 100 PT_391) (Get_Temperature_PT 120 100 PT_391) /\
  dlt (Get_Temperature_M 80 100 M_428) (Get_Temperature_M 120 100 M_428).
Proof.
  assert (H0 : nominal_R0 100) by (unfold nominal_R0; split; lra).
  assert (H1 : 0 <= 80) by lra.
  assert (H2 : 80 + 1e-9 * 100 <= 120) by lra.
  assert (H3 : 120 <= 4 * 100) by lra.
  destruct (temperature_increasing_apart 80 120 100 H0 H1 H2 H3)
    as ((H385 & _) & (_ & H391) & (_ & HM)).
  repeat split; try assumption; lra.
Defined.

Lemma temperature_around_R0_witness :
  nominal_R0 100 /\
  Get_Temperature_PT 100 100 PT_385 = Fin 0 /\
  dlt (Get_Temperature_PT 80 100 PT_385) (Fin 0) /\
  Get_Temperature_N 100 100 N_617 = Fin 0.
Proof.
  assert (H0 : nominal_R0 100) by (unfold nominal_R0; split; lra).
  destruct (temperature_around_R0 80 100 H0) as ((E & _ & _) & Hneg & _ & HN & _).
  destruct (Hneg ltac:(lra)) as (Hn & _ & _).
  repeat split; try assumption; try lra.
  apply HN. left. reflexivity.
Defined.

Lemma closed_form_round_trip_witness :
  nominal_R0 100 /\ nominal_R0 500 /\
  near (round_trip Get_Resistance_PT Get_Temperature_PT 50 100 PT_385) 50 1e-9 /\
  near (round_trip Get_Resistance_M Get_Temperature_M 50 100 M_428) 50 1e-9 /\
  near (round_trip Get_Resistance_N Get_Temperature_N 50 500 N_617) 50 1e-9.
Proof.
  assert (H0 : nominal_R0 100) by (unfold nominal_R0; split; lra).
  assert (H5 : nominal_R0 500) by (unfold nominal_R0; split; lra).
  destruct (closed_form_round_trip 50 100 H0) as (HPT & HM & _).
  destruct (closed_form_round_trip 50 500 H5) as (_ & _ & HN).
  destruct (HPT ltac:(lra)) as [E _].
  repeat split; try assumption; try lra.
  - apply HM. lra.
  - apply HN; [right; left; reflexivity | lra].
Defined.

Lemma closed_form_inverse_witness :
  nominal_R0 100 /\
  near (and_then (Get_Temperature_PT 120 100 PT_385)
          (fun T => Get_Resistance_PT T 100 PT_385)) 120 (1e-9 * 100) /\
  near (and_then (Get_Temperature_M 120 100 M_428)
          (fun T => Get_Resistance_M T 100 M_428)) 120 (1e-9 * 100) /\
  near (and_then (Get_Temperature_N 120 100 N_617)
          (fun T => Get_Resistance_N T 100 N_617)) 120 (1e-9 * 100).
Proof.
  assert (H0 : nominal_R0 100) by (unfold nominal_R0; split; lra).
  destruct (closed_form_inverse 120 100 H0) as (HPT & HN).
  destruct (HPT ltac:(lra)) as (H385 & _ & HM).
  repeat split; try assumption; try lra.
  apply HN; [left; reflexivity | lra].
Defined.

Lemma sensor_scaling_witness :
  0 < 10 /\
  Get_Temperature_PT (10 * 120) (10 * 100) PT_385 = Get_Temperature_PT 120 100 PT_385 /\
  Get_Temperature_M (10 * 120) (10 * 100) M_428 = Get_Temperature_M 120 100 M_428.
Proof.
  assert (H0 : 0 < 10) by lra.
  destruct (sensor_scaling 10 120 100 PT_385 H0) as (E & _).
  destruct (sensor_scaling 10 120 100 M_428 H0) as (_ & EM).
  repeat split; assumption.
Defined.

Lemma nickel_knee_drop_witness :
  (100 = 100 \/ 100 = 500 \/ 100 = 1000) /\
  Temp_start 100 - 100 * 1e-6 <= 161.71995 /\ 161.71995 < Temp_start 100 /\
  exists t_knee t : R,
    Get_Temperature_N (Temp_start 100) 100 N_617 = Fin t_knee /\
    Get_Temperature_N 161.71995 100 N_617 = Fin t /\
    t_knee + 0.0017 < t /\
    99.997 < t_knee <= 100.
Proof.
  assert (H0 : 100 = 100 \/ 100 = 500 \/ 100 = 1000) by (left; reflexivity).
  destruct Temp_start_values as (E & _).
  assert (H1 : Temp_start 100 - 100 * 1e-6 <= 161.71995) by (rewrite E; lra).
  assert (H2 : 161.71995 < Temp_start 100) by (rewrite E; lra).
  repeat split; try assumption.
  apply (nickel_knee_drop 161.71995 100 H0 H1 H2).
Defined.

Lemma nickel_sensors_compared_witness :
  ~ (161.718 <= 150 < 161.72) /\ 161.718 <= 161.719 < 161.72 /\
  Get_Temperature_N (5 * 150) 500 N_617 = Get_Temperature_N 150 100 N_617 /\
  dlt (Get_Temperature_N (5 * 161.719) 500 N_617)
      (Get_Temperature_N 161.719 100 N_617).
Proof.
  assert (H1 : ~ (161.718 <= 150 < 161.72)) by lra.
  assert (H2 : 161.718 <= 161.719 < 161.72) by lra.
  destruct (nickel_sensors_compared 150) as (_ & Hout & _).
  destruct (nickel_sensors_compared 161.719) as (_ & _ & Hin).
  split; [exact H1 | split; [exact H2 | split; [exact (Hout H1) | exact (Hin H2)]]].
Defined.

Lemma chip_select_discipline_witness :
  chip_select_after false [] = Some false /\
  chip_select_after false
    (spi_bus (run [Call_Init 4;
                   Call_Get_Resistance [0x40; 0x00; 0; 0; 0; 0; 0x04]%Z;
                   Call_Configuration_info 0xC1]
                  {| MAX31865_Sensor_Error := false; spi_bus := [] |}))
  = Some false.
Proof.
  split; [reflexivity |].
  apply (chip_select_discipline
           [Call_Init 4; Call_Get_Resistance [0x40; 0x00; 0; 0; 0; 0; 0x04]%Z;
            Call_Configuration_info 0xC1]
           {| MAX31865_Sensor_Error := false; spi_bus := [] |}).
  reflexivity.
Defined.

Lemma Sensor_Error_never_set_witness :
  (fault_status [0x40; 0x00; 0; 0; 0; 0; 0x04] > 0)%Z /\
  MAX31865_Sensor_Error
    (snd (MAX31865_Get_Resistance [0x40; 0x00; 0; 0; 0; 0; 0x04]%Z
            {| MAX31865_Sensor_Error := true; spi_bus := [] |})) = false /\
  MAX31865_Sensor_Error
    (run [Call_Get_Resistance [0x40; 0x00; 0; 0; 0; 0; 0x04]%Z;
          Call_Configuration_info 0xC1]
         {| MAX31865_Sensor_Error := false; spi_bus := [] |}) = false.
Proof.
  assert (H0 : (fault_status [0x40; 0x00; 0; 0; 0; 0; 0x04] > 0)%Z) by reflexivity.
  destruct Sensor_Error_never_set as (Hfault & Hrun).
  split; [exact H0 | split].
  - apply Hfault. exact H0.
  - apply Hrun. reflexivity.
Defined.

Lemma configuration_written_witness :
  (fault_status [0x40; 0x00; 0; 0; 0; 0; 0x04] > 0)%Z /\
  last_configuration
    (spi_bus (run [Call_Init 4;
                   Call_Get_Resistance [0x40; 0x00; 0; 0; 0; 0; 0x04]%Z]
                  {| MAX31865_Sensor_Error := false; spi_bus := [] |})) None
  = Some 0xD3%Z.
Proof.
  assert (H0 : (fault_status [0x40; 0x00; 0; 0; 0; 0; 0x04] > 0)%Z) by reflexivity.
  split; [exact H0 |].
  apply (configuration_written 4 [0x40; 0x00; 0; 0; 0; 0; 0x04]%Z
           {| MAX31865_Sensor_Error := false; spi_bus := [] |} None).
  exact H0.
Defined.

Lemma readout_range_witness :
  is_byte 0x40 /\ is_byte 0x01 /\
  (exists r : R,
     fst (MAX31865_Get_Resistance [0x40; 0x01; 0; 0; 0; 0; 0]%Z
            {| MAX31865_Sensor_Error := false; spi_bus := [] |}) = Fin r /\
     0 <= r < MAX31865_R_REF).
Proof.
  assert (H0 : is_byte 0x40) by (unfold is_byte; lia).
  assert (H1 : is_byte 0x01) by (unfold is_byte; lia).
  destruct (readout_range 0x40 0x01 [0; 0; 0; 0; 0]%Z [] 
              {| MAX31865_Sensor_Error := false; spi_bus := [] |}
              {| MAX31865_Sensor_Error := false; spi_bus := [] |} H0 H1)
    as (Hr & _).
  split; [exact H0 | split; [exact H1 | exact Hr]].
Defined.

Lemma driver_temperature_range_witness :
  is_byte 0x40 /\ is_byte 0x00 /\
  (exists t : R,
     and_then (fst (MAX31865_Get_Resistance [0x40; 0x00; 0; 0; 0; 0; 0]%Z
                      {| MAX31865_Sensor_Error := false; spi_bus := [] |}))
              (MAX31865_Get_Temperature 100) = Fin t /\
     -241.96 <= t < 984).
Proof.
  assert (H0 : is_byte 0x40) by (unfold is_byte; lia).
  assert (H1 : is_byte 0x00) by (unfold is_byte; lia).
  split; [exact H0 | split; [exact H1 |]].
  apply (driver_temperature_range 0x40 0x00 [0; 0; 0; 0; 0]%Z
           {| MAX31865_Sensor_Error := false; spi_bus := [] |} H0 H1).
Defined.
